(** * VEDICSTEM chat client: the conversation state machine of [src/App.tsx]

    A shallow embedding of the hook [useChatHandlers] and of the state the
    component [App] owns, followed by the properties of the conversation
    state machine.

    Modelling conventions.
    - A JavaScript string is its sequence of UTF-16 code units ([list N]).
    - A React state cell ([useState]) is a field of [State]; [chatRef] is the
      mutable ref of [useRef].  State updates queued by one run of a handler
      (or by one resumption after [await]) are applied together before the
      next render, so one run is one transition and the states between
      transitions are the observable ones.
    - A handler closes over the values of the render it was created in; an
      event is dispatched to the handler of the latest render, so the values
      it closes over are those of the state the transition starts from.  The
      functional updates [setMessages(prev => ...)] read the queued state.
    - The remote collaborator ([GoogleGenAI], [Chat.sendMessage]) and the
      wall clock ([Date.now]) are inputs of the transitions. *)

From Stdlib Require Import List Sorted ZArith NArith Bool Lia String Ascii.
Import ListNotations.

Local Open Scope Z_scope.

(** ** JavaScript strings *)

Definition jsstring := list N.

(** A source literal made of ASCII characters. *)
Definition js (s : string) : jsstring :=
  map N_of_ascii (list_ascii_of_string s).

(** [WhiteSpace] and [LineTerminator] code points of ECMA-262, the ones
    [String.prototype.trim] removes. *)
Definition isWhiteSpace (c : N) : bool :=
  ((9 <=? c) && (c <=? 13) || (c =? 32) || (c =? 160) || (c =? 5760)
   || (8192 <=? c) && (c <=? 8202)
   || (c =? 8232) || (c =? 8233) || (c =? 8239) || (c =? 8287)
   || (c =? 12288) || (c =? 65279))%N.

Fixpoint trimStart (s : jsstring) : jsstring :=
  match s with
  | [] => []
  | c :: s' => if isWhiteSpace c then trimStart s' else s
  end.

Definition trimEnd (s : jsstring) : jsstring := rev (trimStart (rev s)).

(** [s.trim()] *)
Definition trim (s : jsstring) : jsstring := trimEnd (trimStart s).

(** Truthiness of a string: the empty string is the only falsy one. *)
Definition truthy (s : jsstring) : bool :=
  match s with [] => false | _ :: _ => true end.

(** [s.startsWith(p)] *)
Fixpoint startsWith (p s : jsstring) : bool :=
  match p, s with
  | [], _ => true
  | _ :: _, [] => false
  | x :: p', y :: s' => N.eqb x y && startsWith p' s'
  end.

(** [s.replace(p, r)] for a string pattern [p]: only the first occurrence
    of [p] is replaced.  The replacement is taken literally, which is what
    JavaScript does when [r] holds no [$]; the source only passes ['']. *)
Fixpoint replace (p r s : jsstring) : jsstring :=
  if startsWith p s then r ++ skipn (List.length p) s
  else match s with
       | [] => []
       | c :: s' => c :: replace p r s'
       end.

(** [s.includes(p)] *)
Fixpoint includes (p s : jsstring) : bool :=
  startsWith p s ||
  match s with
  | [] => false
  | _ :: s' => includes p s'
  end.

(** ** Messages *)

Inductive MessageType := user | bot.

Inductive FeedbackType := Like | Dislike.

(** The optional field [feedback?: 'Like' | 'Dislike' | null]. *)
Inductive Feedback :=
| FbUndefined
| FbNull
| FbSet (k : FeedbackType).

Definition FeedbackType_eqb (a b : FeedbackType) : bool :=
  match a, b with
  | Like, Like | Dislike, Dislike => true
  | _, _ => false
  end.

(** [f === k] for a feedback kind [k]. *)
Definition feedback_is (f : Feedback) (k : FeedbackType) : bool :=
  match f with
  | FbSet k' => FeedbackType_eqb k' k
  | _ => false
  end.

(** No feedback is set: the field is missing or [null]. *)
Definition feedback_absent (f : Feedback) : bool :=
  match f with
  | FbSet _ => false
  | _ => true
  end.

Module Msg.
(** [type Message]; [isLoading?: boolean] is [None] when the field is
    missing. *)
Record t := mk {
  id : Z;
  type : MessageType;
  content : jsstring;
  feedback : Feedback;
  isLoading : option bool
}.

Definition with_content (m : t) (c : jsstring) : t :=
  mk (id m) (type m) c (feedback m) (isLoading m).

Definition with_feedback (m : t) (f : Feedback) : t :=
  mk (id m) (type m) (content m) f (isLoading m).

(** [{ ...msg, content: c, isLoading: false }] *)
Definition resolved (m : t) (c : jsstring) : t :=
  mk (id m) (type m) c (feedback m) (Some false).

(** The test [msg.isLoading ? ... : ...]. *)
Definition pending (m : t) : bool :=
  match isLoading m with
  | Some true => true
  | _ => false
  end.
End Msg.

Definition Message : Type := Msg.t.

(** ** The remote conversation session *)

Inductive Role := RoleUser | RoleModel.

(** One entry of the history: [{ role, parts: [{ text }] }]. *)
Record HistoryEntry := mkEntry {
  role : Role;
  text : jsstring
}.

(** A session as [ai.chats.create] returns it: which creation it comes
    from, and the history it was created with. *)
Record Chat := mkChat {
  chat_id : nat;
  history : list HistoryEntry
}.

(** ** The state of the component *)

Record State := mkState {
  messages : list Message;
  message : jsstring;
  isLoading : bool;
  chatRef : option Chat;
  (** sessions [ai.chats.create] has returned so far, oldest first *)
  created : list Chat;
  (** runs of [handleSendMessage] suspended at their [await] *)
  awaiting : nat;
  (** calls of [console.error] so far *)
  console_errors : nat
}.

Definition marker : jsstring := js "[REGENERATED] ".

Definition apology : jsstring :=
  js "Sorry, I encountered an error. Please try again.".

(** [useState] initial values in [App]. *)
Definition initial_messages : list Message :=
  [ Msg.mk 1 user
      (js "What is VEDICSTEM and how does it integrate traditional knowledge with modern science?")
      FbUndefined None;
    Msg.mk 2 bot
      (js "VEDICSTEM is an innovative approach that bridges ancient Vedic wisdom with contemporary STEM (Science, Technology, Engineering, and Mathematics) education. It explores how traditional Indian knowledge systems, including mathematics, astronomy, medicine, and engineering principles found in ancient texts, align with and complement modern scientific understanding. This integration helps students appreciate the rich scientific heritage while applying it to solve contemporary challenges.")
      FbUndefined None ].

Definition initial_state : State :=
  mkState initial_messages [] false None [] 0 0.

(** ** Effects: queued state updates and exceptions

    A computation reads and updates the state and either completes or
    throws. *)

Inductive Completion (A : Type) :=
| Normal (a : A)
| Throw.

Arguments Normal {A} a.
Arguments Throw {A}.

Definition Eff (A : Type) : Type := State -> Completion A * State.

Definition ret {A} (a : A) : Eff A := fun s => (Normal a, s).

Definition throw {A} : Eff A := fun s => (Throw, s).

Definition bind {A B} (c : Eff A) (k : A -> Eff B) : Eff B :=
  fun s =>
    match c s with
    | (Normal a, s') => k a s'
    | (Throw, s') => (Throw, s')
    end.

Notation "x <- c ;; k" := (bind c (fun x => k))
  (at level 61, c at next level, right associativity).
Notation "c ;; k" := (bind c (fun _ => k))
  (at level 61, right associativity).

(** [try { body } catch (error) { handler }] *)
Definition try_catch {A} (body handler : Eff A) : Eff A :=
  fun s =>
    match body s with
    | (Normal a, s') => (Normal a, s')
    | (Throw, s') => handler s'
    end.

(** The state a computation leaves. *)
Definition exec {A} (c : Eff A) (s : State) : State := snd (c s).

Definition setMessages (f : list Message -> list Message) : Eff unit :=
  fun s => (Normal tt,
            mkState (f (messages s)) (message s) (isLoading s) (chatRef s)
                    (created s) (awaiting s) (console_errors s)).

Definition setMessage (m : jsstring) : Eff unit :=
  fun s => (Normal tt,
            mkState (messages s) m (isLoading s) (chatRef s)
                    (created s) (awaiting s) (console_errors s)).

Definition setIsLoading (b : bool) : Eff unit :=
  fun s => (Normal tt,
            mkState (messages s) (message s) b (chatRef s)
                    (created s) (awaiting s) (console_errors s)).

(** [chatRef.current = c] *)
Definition setChatRef (c : option Chat) : Eff unit :=
  fun s => (Normal tt,
            mkState (messages s) (message s) (isLoading s) c
                    (created s) (awaiting s) (console_errors s)).

(** [console.error(...)] *)
Definition console_error : Eff unit :=
  fun s => (Normal tt,
            mkState (messages s) (message s) (isLoading s) (chatRef s)
                    (created s) (awaiting s) (S (console_errors s))).

(** ** The remote collaborator and the clock, as seen by one send *)

Record SendEnv := mkSendEnv {
  (** [Date.now()] when [newMessage] is built *)
  now_user : Z;
  (** [Date.now()] when the placeholder is built, inside the updater *)
  now_bot : Z;
  (** [new GoogleGenAI(...)] or [ai.chats.create(...)] throws *)
  create_throws : bool;
  (** the call [chatRef.current.sendMessage(...)] itself throws *)
  send_throws : bool
}.

(** How the promise of [sendMessage] settles. *)
Inductive Outcome :=
| Resolved (response_text : jsstring)
| Rejected.

(** [ai.chats.create({ model, history })] *)
Definition chats_create (env : SendEnv) (h : list HistoryEntry) : Eff Chat :=
  fun s =>
    if create_throws env then (Throw, s)
    else
      let c := mkChat (List.length (created s)) h in
      (Normal c,
       mkState (messages s) (message s) (isLoading s) (chatRef s)
               (created s ++ [c]) (awaiting s) (console_errors s)).

(** [chatRef.current.sendMessage({ message })] up to the [await]: the call
    throws, or it returns a promise and the run is suspended on it. *)
Definition sendMessage (env : SendEnv) (m : jsstring) : Eff unit :=
  fun s =>
    if send_throws env then (Throw, s)
    else
      (Normal tt,
       mkState (messages s) (message s) (isLoading s) (chatRef s)
               (created s) (S (awaiting s)) (console_errors s)).

(** ** [useChatHandlers] *)

(** [msg => ({ role: msg.type === 'user' ? 'user' : 'model',
               parts: [{ text: msg.content }] })] *)
Definition toHistoryEntry (msg : Message) : HistoryEntry :=
  mkEntry (match Msg.type msg with user => RoleUser | bot => RoleModel end)
          (Msg.content msg).

(** Lines 52-64: the session is created on the first send after the ref
    was emptied, from [messages] as the handler closed over them. *)
Definition getOrCreateSession (env : SendEnv) (closure_messages : list Message)
  : Eff unit :=
  fun s =>
    match chatRef s with
    | Some _ => (Normal tt, s)
    | None =>
        (c <- chats_create env (map toHistoryEntry closure_messages) ;;
         setChatRef (Some c)) s
    end.

(** [msg => msg.isLoading ? { ...msg, content: c, isLoading: false } : msg] *)
Definition resolvePending (c : jsstring) (msg : Message) : Message :=
  if Msg.pending msg then Msg.resolved msg c else msg.

(** The [catch] block. *)
Definition catch_block : Eff unit :=
  console_error ;; setMessages (map (resolvePending apology)).

(** The [finally] block. *)
Definition finally_block : Eff unit := setIsLoading false.

(** The guard [!message.trim() || isLoading]. *)
Definition send_rejected (s : State) : bool :=
  negb (truthy (trim (message s))) || isLoading s.

(** [handleSendMessage], from the call to its [await] or, when nothing is
    awaited, to its end. *)
Definition handleSendMessage (env : SendEnv) (s : State) : State :=
  if send_rejected s then s
  else
    let closure_messages := messages s in
    let newMessage :=
      Msg.mk (now_user env) user (trim (message s)) FbUndefined None in
    exec
      (setIsLoading true ;;
       setMessages (fun prev =>
         prev ++ [newMessage;
                  Msg.mk (now_bot env + 1) bot [] FbUndefined (Some true)]) ;;
       setMessage [] ;;
       r <- try_catch
              (getOrCreateSession env closure_messages ;;
               sendMessage env (Msg.content newMessage) ;;
               ret true)
              (catch_block ;; ret false) ;;
       (* suspended at the [await]: [finally] runs when the promise settles *)
       if r : bool then ret tt else finally_block)
      s.

(** The rest of [handleSendMessage], run when the awaited promise settles.
    There is nothing to resume when no run is suspended. *)
Definition resume (o : Outcome) (s : State) : option State :=
  match awaiting s with
  | O => None
  | S n =>
      let s' := mkState (messages s) (message s) (isLoading s) (chatRef s)
                        (created s) n (console_errors s) in
      Some (exec
              (match o with
               | Resolved aiResponseText =>
                   setMessages (map (resolvePending aiResponseText))
               | Rejected => catch_block
               end ;;
               finally_block)
              s')
  end.

(** [handleNewChat] *)
Definition handleNewChat (s : State) : State :=
  exec (setMessages (fun _ => []) ;; setMessage [] ;; setChatRef None) s.

(** [handleRegenerate] *)
Definition regenerated (c : jsstring) : jsstring :=
  marker ++ replace marker [] c.

Definition handleRegenerate (messageId : Z) (s : State) : State :=
  exec (setMessages (map (fun msg =>
          if Msg.id msg =? messageId
          then Msg.with_content msg (regenerated (Msg.content msg))
          else msg))) s.

(** [handleFeedback] *)
Definition toggled (f : Feedback) (feedbackType : FeedbackType) : Feedback :=
  if feedback_is f feedbackType then FbNull else FbSet feedbackType.

Definition handleFeedback (messageId : Z) (feedbackType : FeedbackType)
    (s : State) : State :=
  exec (setMessages (map (fun msg =>
          if Msg.id msg =? messageId
          then Msg.with_feedback msg (toggled (Msg.feedback msg) feedbackType)
          else msg))) s.

(** ** Events and runs *)

Inductive Event :=
| EType (txt : jsstring)          (* [onChange] of the text area: [setMessage] *)
| ESend (env : SendEnv)           (* send button or Enter *)
| ESettle (o : Outcome)           (* the awaited promise settles *)
| ENewChat
| ERegenerate (messageId : Z)
| EFeedback (messageId : Z) (feedbackType : FeedbackType).

Definition step (s : State) (e : Event) : option State :=
  match e with
  | EType txt => Some (exec (setMessage txt) s)
  | ESend env => Some (handleSendMessage env s)
  | ESettle o => resume o s
  | ENewChat => Some (handleNewChat s)
  | ERegenerate i => Some (handleRegenerate i s)
  | EFeedback i k => Some (handleFeedback i k s)
  end.

Fixpoint run (s : State) (es : list Event) : option State :=
  match es with
  | [] => Some s
  | e :: es' =>
      match step s e with
      | Some s' => run s' es'
      | None => None
      end
  end.

Definition is_new_chat (e : Event) : bool :=
  match e with ENewChat => true | _ => false end.

(** The number of messages shown as loading. *)
Definition count_pending (l : list Message) : nat :=
  List.length (filter Msg.pending l).

(** [submit(rawText)] of the specification: the text is typed, then sent. *)
Definition submit (rawText : jsstring) (env : SendEnv) (s : State) : State :=
  handleSendMessage env (exec (setMessage rawText) s).

(** The text a settled send writes into the loading messages. *)
Definition settled_text (o : Outcome) : jsstring :=
  match o with
  | Resolved aiResponseText => aiResponseText
  | Rejected => apology
  end.

(** Whether a send that passes the guard throws before it reaches its
    [await]. *)
Definition throws_before_await (env : SendEnv) (s : State) : bool :=
  match chatRef s with
  | None => create_throws env
  | Some _ => false
  end || send_throws env.

(** * Properties *)

(** ** Strings *)

Lemma startsWith_app (p x : jsstring) : startsWith p (p ++ x) = true.
Proof.
  induction p as [|c p IH]; simpl.
  - reflexivity.
  - now rewrite N.eqb_refl, IH.
Qed.

Lemma skipn_length_app (p x : jsstring) : skipn (List.length p) (p ++ x) = x.
Proof. induction p; simpl; auto. Qed.

Lemma replace_eq (p r s : jsstring) :
  replace p r s =
  if startsWith p s then r ++ skipn (List.length p) s
  else match s with
       | [] => []
       | c :: s' => c :: replace p r s'
       end.
Proof. destruct s; reflexivity. Qed.

Lemma replace_prefix (p x : jsstring) : replace p [] (p ++ x) = x.
Proof.
  rewrite replace_eq, startsWith_app, skipn_length_app. reflexivity.
Qed.

Lemma includes_eq (p s : jsstring) :
  includes p s =
  startsWith p s || match s with [] => false | _ :: s' => includes p s' end.
Proof. destruct s; reflexivity. Qed.

Lemma replace_absent (p r s : jsstring) :
  includes p s = false -> replace p r s = s.
Proof.
  induction s as [|c s IH]; intros H; rewrite replace_eq;
    rewrite includes_eq in H; apply orb_false_elim in H as [H1 H2];
    rewrite H1.
  - reflexivity.
  - f_equal. auto.
Qed.

Lemma regenerated_idempotent (c : jsstring) :
  regenerated (regenerated c) = regenerated c.
Proof.
  unfold regenerated at 1. unfold regenerated at 1.
  rewrite replace_prefix. reflexivity.
Qed.

Lemma trimStart_nil_iff (s : jsstring) :
  trimStart s = [] <-> forallb isWhiteSpace s = true.
Proof.
  induction s as [|c s IH]; simpl.
  - tauto.
  - destruct (isWhiteSpace c); simpl.
    + exact IH.
    + split; discriminate.
Qed.

Lemma trimStart_fixed (s : jsstring) :
  forallb isWhiteSpace (trimStart s) = true -> trimStart s = [].
Proof.
  induction s as [|c s IH]; simpl.
  - reflexivity.
  - destruct (isWhiteSpace c) eqn:E; simpl.
    + exact IH.
    + rewrite E. discriminate.
Qed.

Lemma forallb_rev {A} (f : A -> bool) (l : list A) :
  forallb f (rev l) = forallb f l.
Proof.
  induction l as [|a l IH]; simpl.
  - reflexivity.
  - rewrite forallb_app, IH. simpl. rewrite andb_true_r. apply andb_comm.
Qed.

(** A text trims to the empty string exactly when it holds nothing but
    white space. *)
Lemma trim_nil_iff (s : jsstring) :
  trim s = [] <-> forallb isWhiteSpace s = true.
Proof.
  unfold trim, trimEnd. split.
  - intros H.
    assert (H1 : trimStart (rev (trimStart s)) = []).
    { destruct (trimStart (rev (trimStart s))) as [|c l]; [reflexivity|].
      simpl in H. destruct (rev l); discriminate. }
    apply trimStart_nil_iff in H1. rewrite forallb_rev in H1.
    apply trimStart_fixed in H1. now apply trimStart_nil_iff.
  - intros H. apply trimStart_nil_iff in H. rewrite H. reflexivity.
Qed.

Lemma send_rejected_iff (s : State) :
  send_rejected s = true <-> trim (message s) = [] \/ isLoading s = true.
Proof.
  unfold send_rejected.
  destruct (trim (message s)) eqn:E, (isLoading s); simpl; split; intros H;
    auto; destruct H; discriminate.
Qed.

(** ** Loading messages *)

Lemma count_pending_app (l1 l2 : list Message) :
  count_pending (l1 ++ l2) = (count_pending l1 + count_pending l2)%nat.
Proof. unfold count_pending. now rewrite filter_app, length_app. Qed.

Lemma pending_resolvePending (c : jsstring) (m : Message) :
  Msg.pending (resolvePending c m) = false.
Proof.
  unfold resolvePending. destruct (Msg.pending m) eqn:E; [reflexivity|exact E].
Qed.

Lemma count_pending_resolved (c : jsstring) (l : list Message) :
  count_pending (map (resolvePending c) l) = 0%nat.
Proof.
  unfold count_pending.
  induction l as [|m l IH]; simpl; [reflexivity|].
  now rewrite pending_resolvePending.
Qed.

Lemma count_pending_map (f : Message -> Message) (l : list Message) :
  (forall m, Msg.pending (f m) = Msg.pending m) ->
  count_pending (map f l) = count_pending l.
Proof.
  intros Hf. unfold count_pending.
  induction l as [|m l IH]; simpl; [reflexivity|].
  rewrite Hf. destruct (Msg.pending m); simpl; now rewrite IH.
Qed.

Lemma resolvePending_none (c : jsstring) (l : list Message) :
  count_pending l = 0%nat -> map (resolvePending c) l = l.
Proof.
  unfold count_pending, resolvePending.
  induction l as [|m l IH]; simpl; [reflexivity|].
  destruct (Msg.pending m); simpl; [discriminate|].
  intros H. now rewrite IH.
Qed.

(** ** The initial state and [handleNewChat] *)

(** C9: before any user action the conversation is not empty: [messages]
    holds exactly two hardcoded turns, a user turn with id 1 followed by a
    bot turn with id 2, none of them loading; nothing is being sent and
    there is no session.  The turns list is empty only after a new chat. *)
Theorem initial_state_two_turns :
  (exists u b,
      messages initial_state = [u; b] /\
      Msg.id u = 1 /\ Msg.type u = user /\
      Msg.id b = 2 /\ Msg.type b = bot /\
      Msg.pending u = false /\ Msg.pending b = false) /\
  isLoading initial_state = false /\
  chatRef initial_state = None /\
  awaiting initial_state = 0%nat /\
  messages initial_state <> [] /\
  messages (handleNewChat initial_state) = [].
Proof.
  split; [|repeat split; try reflexivity; discriminate].
  eexists _, _. split; [reflexivity|]. repeat split.
Qed.

(** C2 (amended): a new chat empties [messages], clears the draft and drops
    the session; it leaves the loading flag as it was (so the flag is false
    afterwards whenever it was false before), and it does not touch the
    suspended send.  Two new chats in a row give the state one gives. *)
Theorem handleNewChat_spec (s : State) :
  messages (handleNewChat s) = [] /\
  message (handleNewChat s) = [] /\
  chatRef (handleNewChat s) = None /\
  isLoading (handleNewChat s) = isLoading s /\
  awaiting (handleNewChat s) = awaiting s /\
  handleNewChat (handleNewChat s) = handleNewChat s.
Proof. repeat split. Qed.

(** C2, as stated, fails: a new chat while a send is in flight leaves the
    loading flag true. *)
Lemma handleNewChat_keeps_loading :
  exists s,
    run initial_state
        [EType (js "hi"); ESend (mkSendEnv 1700000000000 1700000000000 false false)]
    = Some s /\
    isLoading s = true /\
    messages (handleNewChat s) = [] /\
    chatRef (handleNewChat s) = None /\
    isLoading (handleNewChat s) <> false.
Proof.
  eexists. split; [vm_compute; reflexivity|].
  repeat split; discriminate.
Qed.

(** ** The guard of [handleSendMessage] *)

(** For [submit], which types the text first, a rejected send leaves
    everything but the draft as it was. *)
Lemma submit_rejected (env : SendEnv) (rawText : jsstring) (s : State) :
  trim rawText = [] \/ isLoading s = true ->
  submit rawText env s = exec (setMessage rawText) s.
Proof.
  intros H. unfold submit, handleSendMessage.
  assert (E : send_rejected (exec (setMessage rawText) s) = true)
    by (apply send_rejected_iff; exact H).
  now rewrite E.
Qed.

(** C5: when the draft trims to the empty string or a send is already in
    flight, [handleSendMessage] is a no-op: the turns, the loading flag, the
    session and the draft are unchanged, nothing is sent, and no error is
    logged or shown. *)
Theorem handleSendMessage_rejected_noop (env : SendEnv) (s : State) :
  trim (message s) = [] \/ isLoading s = true ->
  handleSendMessage env s = s.
Proof.
  intros H. apply send_rejected_iff in H.
  unfold handleSendMessage. now rewrite H.
Qed.

Lemma handleSendMessage_rejected_noop_witness :
  let s := mkState initial_messages (js "  ") false None [] 0 0 in
  handleSendMessage (mkSendEnv 5 5 false false) s = s.
Proof.
  intros s.
  apply (handleSendMessage_rejected_noop (mkSendEnv 5 5 false false) s).
  left. vm_compute. reflexivity.
Defined.

(** ** [handleFeedback] *)

Lemma toggled_twice (f : Feedback) (k : FeedbackType) :
  feedback_is f k = false ->
  toggled f k = FbSet k /\ toggled (toggled f k) k = FbNull.
Proof.
  intros H. unfold toggled. rewrite H. simpl.
  destruct k; simpl; auto.
Qed.

Lemma toggled_other (f : Feedback) (k1 k2 : FeedbackType) :
  k1 <> k2 -> toggled (toggled f k1) k2 = FbSet k2.
Proof.
  intros H. unfold toggled.
  destruct f as [| |[]], k1, k2; simpl; congruence.
Qed.

Lemma handleFeedback_nth (i : Z) (k : FeedbackType) (s : State) (n : nat) :
  nth_error (messages (handleFeedback i k s)) n =
  option_map (fun msg =>
                if Msg.id msg =? i
                then Msg.with_feedback msg (toggled (Msg.feedback msg) k)
                else msg)
             (nth_error (messages s) n).
Proof. unfold handleFeedback. simpl. apply nth_error_map. Qed.

(** C8: [handleFeedback id kind] rewrites only the feedback of the turns
    with that id and nothing else in the state.  The feedback becomes
    [kind] when it was different and is cleared when it already was [kind].
    Hence on a turn whose feedback is not [Like], two [Like] toggles leave
    no feedback; [Like] then [Dislike] leaves [Dislike]; and a turn never
    has both kinds set. *)
Theorem handleFeedback_spec (s : State) (i : Z) (k : FeedbackType)
    (n : nat) (m : Message) :
  nth_error (messages s) n = Some m ->
  Msg.id m = i ->
  (exists m',
      nth_error (messages (handleFeedback i k s)) n = Some m' /\
      Msg.id m' = Msg.id m /\ Msg.type m' = Msg.type m /\
      Msg.content m' = Msg.content m /\ Msg.isLoading m' = Msg.isLoading m /\
      (feedback_is (Msg.feedback m) k = false -> Msg.feedback m' = FbSet k) /\
      (feedback_is (Msg.feedback m) k = true ->
       feedback_absent (Msg.feedback m') = true)) /\
  (forall n' m0, nth_error (messages s) n' = Some m0 -> Msg.id m0 <> i ->
                 nth_error (messages (handleFeedback i k s)) n' = Some m0) /\
  (feedback_is (Msg.feedback m) Like = false ->
   exists m2,
     nth_error (messages (handleFeedback i Like (handleFeedback i Like s))) n
     = Some m2 /\ feedback_absent (Msg.feedback m2) = true) /\
  (exists m2,
     nth_error (messages (handleFeedback i Dislike (handleFeedback i Like s))) n
     = Some m2 /\ Msg.feedback m2 = FbSet Dislike) /\
  (forall m', In m' (messages (handleFeedback i k s)) ->
              feedback_is (Msg.feedback m') Like &&
              feedback_is (Msg.feedback m') Dislike = false) /\
  isLoading (handleFeedback i k s) = isLoading s /\
  chatRef (handleFeedback i k s) = chatRef s /\
  message (handleFeedback i k s) = message s /\
  List.length (messages (handleFeedback i k s)) = List.length (messages s).
Proof.
  intros Hn Hi.
  assert (Ei : (Msg.id m =? i) = true) by (apply Z.eqb_eq; exact Hi).
  split; [|split; [|split; [|split; [|split]]]].
  - eexists. rewrite handleFeedback_nth, Hn. simpl. rewrite Ei.
    split; [reflexivity|]. simpl. repeat split; unfold toggled; intros H;
      rewrite H; reflexivity.
  - intros n' m0 Hn' Hne. rewrite handleFeedback_nth, Hn'. simpl.
    apply Z.eqb_neq in Hne. now rewrite Hne.
  - intros H. eexists. rewrite !handleFeedback_nth, Hn. simpl.
    rewrite Ei. simpl. rewrite Ei. split; [reflexivity|]. simpl.
    destruct (toggled_twice _ _ H) as [_ E]. now rewrite E.
  - eexists. rewrite !handleFeedback_nth, Hn. simpl.
    rewrite Ei. simpl. rewrite Ei. split; [reflexivity|]. simpl.
    apply toggled_other. discriminate.
  - intros m' _. destruct (Msg.feedback m') as [| |[]]; reflexivity.
  - repeat split. unfold handleFeedback. simpl. apply length_map.
Qed.

Lemma handleFeedback_spec_witness :
  exists m2,
    nth_error
      (messages (handleFeedback 2 Dislike (handleFeedback 2 Like initial_state)))
      1 = Some m2 /\
    Msg.feedback m2 = FbSet Dislike.
Proof.
  refine (proj1 (proj2 (proj2 (proj2
    (@handleFeedback_spec initial_state 2 Like 1
       (Msg.mk 2 bot (Msg.content (nth 1 initial_messages (Msg.mk 0 user [] FbUndefined None)))
               FbUndefined None) _ _))))).
  - reflexivity.
  - reflexivity.
Defined.

(** ** [handleRegenerate] *)

Definition regenerate_msg (i : Z) (msg : Message) : Message :=
  if Msg.id msg =? i
  then Msg.with_content msg (regenerated (Msg.content msg))
  else msg.

Lemma handleRegenerate_messages (i : Z) (s : State) :
  messages (handleRegenerate i s) = map (regenerate_msg i) (messages s).
Proof. reflexivity. Qed.

Lemma regenerate_msg_idempotent (i : Z) (m : Message) :
  regenerate_msg i (regenerate_msg i m) = regenerate_msg i m.
Proof.
  unfold regenerate_msg. destruct (Msg.id m =? i) eqn:E; simpl; rewrite E.
  - unfold Msg.with_content. simpl. now rewrite regenerated_idempotent.
  - reflexivity.
Qed.

Lemma regenerate_msg_other (i : Z) (l : list Message) :
  (forall m, In m l -> Msg.id m <> i) -> map (regenerate_msg i) l = l.
Proof.
  intros H. rewrite <- (map_id l) at 2. apply map_ext_in.
  intros m Hm. unfold regenerate_msg.
  destruct (Z.eqb_spec (Msg.id m) i) as [E|E]; [|reflexivity].
  now apply H in Hm.
Qed.

(** C7 (amended): [handleRegenerate id] rewrites the content of every turn
    with that id, whatever its role, and changes nothing else; without such
    a turn it is a no-op.  The new content is the marker followed by the old
    content with its first occurrence of the marker removed.  Regenerating
    twice gives what regenerating once gives, and a content that holds no
    marker ends up with exactly one, in front. *)
Theorem handleRegenerate_spec (s : State) (i : Z) (n : nat) (m : Message) :
  nth_error (messages s) n = Some m ->
  nth_error (messages (handleRegenerate i s)) n =
    Some (if Msg.id m =? i
          then Msg.mk (Msg.id m) (Msg.type m)
                      (marker ++ replace marker [] (Msg.content m))
                      (Msg.feedback m) (Msg.isLoading m)
          else m) /\
  ((forall m0, In m0 (messages s) -> Msg.id m0 <> i) ->
   handleRegenerate i s = s) /\
  handleRegenerate i (handleRegenerate i s) = handleRegenerate i s /\
  (Msg.id m = i -> includes marker (Msg.content m) = false ->
   exists m2,
     nth_error (messages (handleRegenerate i (handleRegenerate i s))) n
     = Some m2 /\
     Msg.content m2 = marker ++ Msg.content m /\
     startsWith marker (Msg.content m) = false) /\
  isLoading (handleRegenerate i s) = isLoading s /\
  chatRef (handleRegenerate i s) = chatRef s /\
  message (handleRegenerate i s) = message s /\
  List.length (messages (handleRegenerate i s)) = List.length (messages s).
Proof.
  intros Hn.
  assert (Hidem : handleRegenerate i (handleRegenerate i s) = handleRegenerate i s).
  { unfold handleRegenerate, exec, setMessages. simpl. f_equal.
    rewrite map_map. apply map_ext. apply regenerate_msg_idempotent. }
  split; [|split; [|split; [|split]]].
  - rewrite handleRegenerate_messages, nth_error_map, Hn. reflexivity.
  - intros H. unfold handleRegenerate, exec, setMessages. simpl.
    change (map _ (messages s)) with (map (regenerate_msg i) (messages s)).
    rewrite (regenerate_msg_other _ _ H).
    destruct s; reflexivity.
  - exact Hidem.
  - intros Hi Hinc. rewrite Hidem.
    rewrite handleRegenerate_messages, nth_error_map, Hn. simpl.
    eexists. split; [reflexivity|].
    unfold regenerate_msg. apply Z.eqb_eq in Hi. rewrite Hi. simpl.
    unfold regenerated. rewrite (replace_absent _ _ _ Hinc).
    split; [reflexivity|].
    rewrite includes_eq in Hinc. now apply orb_false_elim in Hinc.
  - repeat split. rewrite handleRegenerate_messages. apply length_map.
Qed.

Lemma handleRegenerate_spec_witness :
  exists m2,
    nth_error
      (messages (handleRegenerate 2 (handleRegenerate 2
         (mkState [Msg.mk 2 bot (js "Namaste") FbUndefined None] [] false None
                  [] 0 0)))) 0
    = Some m2 /\
    Msg.content m2 = marker ++ js "Namaste" /\
    startsWith marker (js "Namaste") = false.
Proof.
  refine (proj1 (proj2 (proj2 (proj2
    (@handleRegenerate_spec
       (mkState [Msg.mk 2 bot (js "Namaste") FbUndefined None] [] false None
                [] 0 0)
       2 0 (Msg.mk 2 bot (js "Namaste") FbUndefined None) _)))) _ _);
    reflexivity.
Defined.

(** C7, as stated, fails twice.  A turn that is not a bot turn is rewritten
    too: regenerating id 1 in the initial state changes the user turn.  And
    only the first marker is stripped: a bot turn whose text, as the model
    returned it, starts with two markers still starts with two after it
    was regenerated twice. *)
Lemma handleRegenerate_claim_fails :
  (exists m m',
      nth_error (messages initial_state) 0 = Some m /\
      Msg.type m = user /\
      (forall b, In b (messages initial_state) ->
                 Msg.type b = bot -> Msg.id b <> 1) /\
      nth_error (messages (handleRegenerate 1 initial_state)) 0 = Some m' /\
      Msg.content m' = marker ++ Msg.content m /\
      handleRegenerate 1 initial_state <> initial_state) /\
  (exists s m,
      run initial_state
          [EType (js "again");
           ESend (mkSendEnv 1700000000000 1700000000000 false false);
           ESettle (Resolved (js "[REGENERATED] [REGENERATED] x"));
           ERegenerate 1700000000001;
           ERegenerate 1700000000001] = Some s /\
      nth_error (messages s) 3 = Some m /\
      Msg.type m = bot /\ Msg.id m = 1700000000001 /\
      Msg.content m = marker ++ marker ++ js "x").
Proof.
  split.
  - eexists _, _. split; [reflexivity|]. split; [reflexivity|].
    split; [|split; [reflexivity|split; [reflexivity|]]].
    + intros b [<-|[<-|[]]]; simpl; intros; discriminate.
    + intros E. apply (f_equal (fun s => option_map Msg.content (nth_error (messages s) 0))) in E.
      vm_compute in E. discriminate.
  - eexists _, _. split; [vm_compute; reflexivity|].
    split; [reflexivity|]. repeat split.
Qed.

(** ** [handleSendMessage] past its guard *)

(** The session a send leaves in [chatRef]. *)
Definition session_after (env : SendEnv) (s : State) : option Chat :=
  match chatRef s with
  | Some c => Some c
  | None =>
      if create_throws env then None
      else Some (mkChat (List.length (created s))
                        (map toHistoryEntry (messages s)))
  end.

Definition created_after (env : SendEnv) (s : State) : list Chat :=
  match chatRef s with
  | Some _ => created s
  | None =>
      if create_throws env then created s
      else created s ++ [mkChat (List.length (created s))
                                (map toHistoryEntry (messages s))]
  end.

Definition user_turn (env : SendEnv) (s : State) : Message :=
  Msg.mk (now_user env) user (trim (message s)) FbUndefined None.

Definition placeholder (env : SendEnv) : Message :=
  Msg.mk (now_bot env + 1) bot [] FbUndefined (Some true).

Lemma handleSendMessage_accepted (env : SendEnv) (s : State) :
  send_rejected s = false ->
  handleSendMessage env s =
  if throws_before_await env s
  then mkState (map (resolvePending apology)
                    (messages s ++ [user_turn env s; placeholder env]))
               [] false (session_after env s) (created_after env s)
               (awaiting s) (S (console_errors s))
  else mkState (messages s ++ [user_turn env s; placeholder env])
               [] true (session_after env s) (created_after env s)
               (S (awaiting s)) (console_errors s).
Proof.
  intros Hg. unfold handleSendMessage. rewrite Hg.
  unfold throws_before_await, session_after, created_after,
    exec, bind, try_catch, getOrCreateSession, chats_create, sendMessage,
    catch_block, finally_block, bind, ret, setIsLoading, setMessages,
    setMessage, setChatRef, console_error.
  simpl.
  destruct (chatRef s) as [c|]; simpl.
  - destruct (send_throws env); reflexivity.
  - destruct (create_throws env); simpl.
    + reflexivity.
    + destruct (send_throws env); reflexivity.
Qed.

Lemma resume_awaiting (o : Outcome) (s : State) :
  awaiting s <> 0%nat ->
  resume o s =
  Some (mkState (map (resolvePending (settled_text o)) (messages s))
                (message s) false (chatRef s) (created s)
                (Nat.pred (awaiting s))
                (match o with
                 | Resolved _ => console_errors s
                 | Rejected => S (console_errors s)
                 end)).
Proof.
  intros H. unfold resume. destruct (awaiting s) as [|n]; [contradiction|].
  destruct o; reflexivity.
Qed.

(** ** The session across a run without a new chat *)

(** From [s] to [s'] an existing session was kept, and none or one was
    created when there was none. *)
Definition session_kept (s s' : State) : Prop :=
  match chatRef s with
  | Some c => chatRef s' = Some c /\ created s' = created s
  | None =>
      (chatRef s' = None /\ created s' = created s) \/
      (exists c, chatRef s' = Some c /\ created s' = created s ++ [c])
  end.

Lemma session_kept_refl (s s' : State) :
  chatRef s' = chatRef s -> created s' = created s -> session_kept s s'.
Proof.
  intros H1 H2. unfold session_kept. destruct (chatRef s); auto.
Qed.

Lemma session_kept_trans (s1 s2 s3 : State) :
  session_kept s1 s2 -> session_kept s2 s3 -> session_kept s1 s3.
Proof.
  unfold session_kept. intros H12 H23.
  destruct (chatRef s1) as [c1|].
  - destruct H12 as [E1 E2]. rewrite E1 in H23. destruct H23 as [E3 E4].
    split; congruence.
  - destruct H12 as [[E1 E2]|[c [E1 E2]]]; rewrite E1 in H23.
    + destruct H23 as [[E3 E4]|[c [E3 E4]]]; [left|right; exists c];
        split; congruence.
    + destruct H23 as [E3 E4]. right. exists c. split; congruence.
Qed.

Lemma handleSendMessage_session (env : SendEnv) (s : State) :
  session_kept s (handleSendMessage env s).
Proof.
  destruct (send_rejected s) eqn:Hg.
  - unfold handleSendMessage. rewrite Hg. now apply session_kept_refl.
  - rewrite (handleSendMessage_accepted env s Hg).
    unfold session_kept, session_after, created_after.
    destruct (throws_before_await env s), (chatRef s), (create_throws env);
      simpl; eauto.
Qed.

Lemma step_session (s s' : State) (e : Event) :
  is_new_chat e = false -> step s e = Some s' -> session_kept s s'.
Proof.
  destruct e; simpl; intros Hn Hs; try discriminate.
  - injection Hs as <-. now apply session_kept_refl.
  - injection Hs as <-. apply handleSendMessage_session.
  - unfold resume in Hs. destruct (awaiting s); [discriminate|].
    injection Hs as <-. destruct o; now apply session_kept_refl.
  - injection Hs as <-. now apply session_kept_refl.
  - injection Hs as <-. now apply session_kept_refl.
Qed.

Lemma run_session (es : list Event) (s s' : State) :
  forallb (fun e => negb (is_new_chat e)) es = true ->
  run s es = Some s' -> session_kept s s'.
Proof.
  revert s. induction es as [|e es IH]; simpl; intros s Hn Hr.
  - injection Hr as <-. now apply session_kept_refl.
  - apply andb_prop in Hn as [He Hes]. apply negb_true_iff in He.
    destruct (step s e) as [s1|] eqn:Hs; [|discriminate].
    eapply session_kept_trans; [eapply step_session; eauto|].
    now apply IH.
Qed.

(** C4: a send that passes the guard keeps a session that already exists
    and creates nothing; with no session it creates one whose history maps
    every turn the handler closed over, in order, user turns to role
    [user], bot turns to role [model], content verbatim; the two turns the
    send appends are not part of it.  After that, a run without a new chat
    keeps that session and creates no other. *)
Theorem getOrCreateSession_spec (env : SendEnv) (s : State) :
  send_rejected s = false ->
  let s' := handleSendMessage env s in
  (forall c, chatRef s = Some c ->
     getOrCreateSession env (messages s) s = (Normal tt, s) /\
     chatRef s' = Some c /\ created s' = created s) /\
  (chatRef s = None -> create_throws env = false ->
   exists c,
     chatRef s' = Some c /\ created s' = created s ++ [c] /\
     history c = map toHistoryEntry (messages s) /\
     (forall n m, nth_error (messages s) n = Some m ->
        nth_error (history c) n =
          Some (mkEntry (match Msg.type m with
                         | user => RoleUser
                         | bot => RoleModel
                         end) (Msg.content m))) /\
     List.length (messages s') = (List.length (history c) + 2)%nat /\
     (throws_before_await env s = false ->
      messages s' = messages s ++ [user_turn env s; placeholder env])) /\
  (chatRef s = None -> create_throws env = true ->
   chatRef s' = None /\ created s' = created s) /\
  (forall es s'',
     forallb (fun e => negb (is_new_chat e)) es = true ->
     run s' es = Some s'' ->
     chatRef s' <> None ->
     chatRef s'' = chatRef s' /\ created s'' = created s').
Proof.
  intros Hg s'. subst s'.
  split; [|split; [|split]].
  - intros c Hc. split.
    + unfold getOrCreateSession. now rewrite Hc.
    + pose proof (handleSendMessage_session env s) as H.
      unfold session_kept in H. now rewrite Hc in H.
  - intros Hc Ht. rewrite (handleSendMessage_accepted env s Hg).
    exists (mkChat (List.length (created s)) (map toHistoryEntry (messages s))).
    unfold session_after, created_after, throws_before_await.
    rewrite Hc, Ht. simpl.
    destruct (send_throws env); simpl;
      (split; [reflexivity|]; split; [reflexivity|]; split; [reflexivity|];
       split; [|split]).
    + intros n m Hn. now rewrite nth_error_map, Hn.
    + rewrite !length_map, length_app. reflexivity.
    + discriminate.
    + intros n m Hn. now rewrite nth_error_map, Hn.
    + rewrite length_map, length_app. reflexivity.
    + reflexivity.
  - intros Hc Ht. pose proof (handleSendMessage_session env s) as H.
    rewrite (handleSendMessage_accepted env s Hg) in *.
    unfold session_after, created_after, throws_before_await.
    rewrite Hc, Ht. simpl. auto.
  - intros es s'' Hn Hr Hsome.
    pose proof (run_session es _ _ Hn Hr) as H. unfold session_kept in H.
    destruct (chatRef (handleSendMessage env s)) as [c|]; [|contradiction].
    exact H.
Qed.

(** The example of the specification: with turns [User "A"; Assistant "B"]
    and no session, sending ["C"] creates the session with the history
    [user "A"; model "B"]. *)
Lemma getOrCreateSession_spec_witness :
  let s := mkState [Msg.mk 10 user (js "A") FbUndefined None;
                    Msg.mk 11 bot (js "B") FbUndefined None]
                   (js "C") false None [] 0 0 in
  exists c,
    chatRef (handleSendMessage (mkSendEnv 20 20 false false) s) = Some c /\
    history c = [mkEntry RoleUser (js "A"); mkEntry RoleModel (js "B")].
Proof.
  intros s.
  destruct (proj1 (proj2
    (getOrCreateSession_spec (mkSendEnv 20 20 false false) s eq_refl))
    eq_refl eq_refl) as [c [H1 [_ [H3 _]]]].
  exists c. split; [exact H1|exact H3].
Defined.

(** ** Settling a send *)

(** C6: for a send that passes the guard, the placeholder ends up with the
    returned text when the remote call succeeds and with the fixed apology
    when it fails, whether the failure is thrown before the [await] or is
    a rejected promise; in each case the placeholder is no longer loading
    and the loading flag is false again. *)
Theorem handleSendMessage_settles (env : SendEnv) (s : State) :
  send_rejected s = false ->
  let s1 := handleSendMessage env s in
  let answer c := Msg.mk (now_bot env + 1) bot c FbUndefined (Some false) in
  apology = js "Sorry, I encountered an error. Please try again." /\
  (throws_before_await env s = true ->
   messages s1 =
     map (resolvePending apology) (messages s)
     ++ [user_turn env s; answer apology] /\
   isLoading s1 = false /\ awaiting s1 = awaiting s) /\
  (throws_before_await env s = false ->
   messages s1 = messages s ++ [user_turn env s; placeholder env] /\
   isLoading s1 = true /\
   (forall aiResponseText, exists s2,
       resume (Resolved aiResponseText) s1 = Some s2 /\
       messages s2 =
         map (resolvePending aiResponseText) (messages s)
         ++ [user_turn env s; answer aiResponseText] /\
       isLoading s2 = false /\ awaiting s2 = awaiting s) /\
   (exists s2,
       resume Rejected s1 = Some s2 /\
       messages s2 =
         map (resolvePending apology) (messages s)
         ++ [user_turn env s; answer apology] /\
       isLoading s2 = false /\ awaiting s2 = awaiting s)) /\
  (count_pending (messages s) = 0%nat ->
   forall c, map (resolvePending c) (messages s) = messages s).
Proof.
  intros Hg s1 answer. subst s1.
  rewrite (handleSendMessage_accepted env s Hg).
  split; [reflexivity|]. split; [|split].
  - intros Ht. rewrite Ht. simpl. rewrite map_app. auto.
  - intros Ht. rewrite Ht. simpl.
    split; [reflexivity|]. split; [reflexivity|]. split.
    + intros txt. eexists. rewrite resume_awaiting by (simpl; discriminate).
      split; [reflexivity|]. simpl. rewrite map_app. auto.
    + eexists. rewrite resume_awaiting by (simpl; discriminate).
      split; [reflexivity|]. simpl. rewrite map_app. auto.
  - intros H c. now apply resolvePending_none.
Qed.

(** The scenario of the specification: ["Hello"] sent on an empty
    conversation and answered ["Hi there"]. *)
Lemma handleSendMessage_settles_witness :
  let s := mkState [] (js "Hello") false None [] 0 0 in
  let env := mkSendEnv 1700000000000 1700000000000 false false in
  exists s2,
    resume (Resolved (js "Hi there")) (handleSendMessage env s) = Some s2 /\
    messages s2 =
      [Msg.mk 1700000000000 user (js "Hello") FbUndefined None;
       Msg.mk 1700000000001 bot (js "Hi there") FbUndefined (Some false)] /\
    isLoading s2 = false /\ awaiting s2 = 0%nat.
Proof.
  intros s env.
  exact (proj1 (proj2 (proj2 (proj1 (proj2 (proj2
    (handleSendMessage_settles env s eq_refl))) eq_refl)))
    (js "Hi there")).
Defined.

(** C10: when the awaited call settles, its text (or the apology) is
    written into every turn that is loading at that moment, whatever its
    id, and into no other; the loading flag becomes false.  After a new
    chat during the call there is no such turn: the text is dropped,
    [messages] stays empty, and the loading flag, still true until then,
    becomes false. *)
Theorem resume_keyed_by_pending (o : Outcome) (s : State) :
  awaiting s <> 0%nat ->
  exists s',
    resume o s = Some s' /\
    (forall n m, nth_error (messages s) n = Some m ->
       nth_error (messages s') n =
         Some (if Msg.pending m
               then Msg.mk (Msg.id m) (Msg.type m) (settled_text o)
                           (Msg.feedback m) (Some false)
               else m)) /\
    List.length (messages s') = List.length (messages s) /\
    isLoading s' = false /\
    awaiting s' = Nat.pred (awaiting s) /\
    chatRef s' = chatRef s /\
    (messages s = [] -> messages s' = []) /\
    (forall env s0,
       send_rejected s0 = false -> throws_before_await env s0 = false ->
       exists s2,
         resume o (handleNewChat (handleSendMessage env s0)) = Some s2 /\
         isLoading (handleNewChat (handleSendMessage env s0)) = true /\
         messages (handleNewChat (handleSendMessage env s0)) = [] /\
         messages s2 = [] /\ isLoading s2 = false /\ chatRef s2 = None).
Proof.
  intros Ha. eexists. split; [apply (resume_awaiting o s Ha)|].
  simpl. split; [|split; [|split; [|split; [|split; [|split]]]]];
    try reflexivity.
  - intros n m Hn. rewrite nth_error_map, Hn. reflexivity.
  - apply length_map.
  - intros E. now rewrite E.
  - intros env s0 Hg Ht. rewrite (handleSendMessage_accepted env s0 Hg), Ht.
    eexists. rewrite resume_awaiting by (simpl; discriminate).
    split; [reflexivity|]. repeat split.
Qed.

Lemma resume_keyed_by_pending_witness :
  exists s',
    resume (Resolved (js "late"))
      (handleNewChat
         (handleSendMessage (mkSendEnv 1700000000000 1700000000000 false false)
            (mkState initial_messages (js "hi") false None [] 0 0)))
    = Some s' /\
    messages s' = [] /\ isLoading s' = false.
Proof.
  destruct (resume_keyed_by_pending (Resolved (js "late"))
    (handleNewChat
       (handleSendMessage (mkSendEnv 1700000000000 1700000000000 false false)
          (mkState initial_messages (js "hi") false None [] 0 0))))
    as [s' [H1 [_ [_ [H4 [_ [_ [H7 _]]]]]]]].
  - vm_compute. discriminate.
  - exists s'. split; [exact H1|]. split; [apply H7; reflexivity|exact H4].
Defined.

(** ** Single flight *)

(** What holds in every state a run reaches: the loading flag is set
    exactly while one send is suspended, and a turn is loading only while a
    send is suspended. *)
Definition single_flight (s : State) : Prop :=
  awaiting s = (if isLoading s then 1 else 0)%nat /\
  (count_pending (messages s) <= awaiting s)%nat.

(** What a new chat during a send breaks: while the flag is set there is a
    loading turn. *)
Definition placeholder_shown (s : State) : Prop :=
  isLoading s = true -> count_pending (messages s) = 1%nat.

Lemma send_accepted_idle (s : State) :
  send_rejected s = false -> isLoading s = false.
Proof.
  unfold send_rejected. intros H. now apply orb_false_elim in H.
Qed.

Lemma pending_regenerate_msg (i : Z) (m : Message) :
  Msg.pending (regenerate_msg i m) = Msg.pending m.
Proof. unfold regenerate_msg. now destruct (Msg.id m =? i). Qed.

Lemma handleSendMessage_single_flight (env : SendEnv) (s : State) :
  single_flight s ->
  single_flight (handleSendMessage env s) /\
  (placeholder_shown s -> placeholder_shown (handleSendMessage env s)).
Proof.
  intros [Ha Hc]. destruct (send_rejected s) eqn:Hg.
  - unfold handleSendMessage. rewrite Hg. split; [split|]; auto.
  - rewrite (handleSendMessage_accepted env s Hg).
    rewrite (send_accepted_idle s Hg) in Ha. rewrite Ha in Hc.
    unfold single_flight, placeholder_shown.
    destruct (throws_before_await env s); simpl.
    + rewrite count_pending_resolved, Ha. split; [split|]; auto. discriminate.
    + rewrite count_pending_app, Ha.
      change (count_pending [user_turn env s; placeholder env]) with 1%nat.
      split; [split|]; intros; lia.
Qed.

Lemma step_single_flight (s s' : State) (e : Event) :
  single_flight s -> step s e = Some s' ->
  single_flight s' /\
  (is_new_chat e = false -> placeholder_shown s -> placeholder_shown s').
Proof.
  intros Hs. pose proof Hs as [Ha Hc].
  destruct e; simpl; intros Hstep.
  - injection Hstep as <-. split; [split|]; auto.
  - injection Hstep as <-.
    destruct (handleSendMessage_single_flight env s Hs). auto.
  - destruct (Nat.eq_dec (awaiting s) 0) as [E|E].
    + unfold resume in Hstep. rewrite E in Hstep. discriminate.
    + rewrite (resume_awaiting o s E) in Hstep. injection Hstep as <-.
      unfold single_flight, placeholder_shown. simpl.
      rewrite count_pending_resolved.
      destruct (isLoading s); split; try split; try lia; discriminate.
  - injection Hstep as <-. unfold single_flight. simpl.
    split; [split; [exact Ha|apply Nat.le_0_l]|discriminate].
  - injection Hstep as <-. unfold single_flight, placeholder_shown. simpl.
    change (map _ (messages s)) with (map (regenerate_msg messageId) (messages s)).
    rewrite (count_pending_map _ _ (pending_regenerate_msg messageId)).
    split; [split|]; auto.
  - injection Hstep as <-. unfold single_flight, placeholder_shown. simpl.
    rewrite count_pending_map.
    + split; [split|]; auto.
    + intros m. now destruct (Msg.id m =? messageId).
Qed.

Lemma run_single_flight (es : list Event) (s s' : State) :
  single_flight s -> run s es = Some s' ->
  single_flight s' /\
  (forallb (fun e => negb (is_new_chat e)) es = true ->
   placeholder_shown s -> placeholder_shown s').
Proof.
  revert s. induction es as [|e es IH]; simpl; intros s Hs Hr.
  - injection Hr as <-. auto.
  - destruct (step s e) as [s1|] eqn:Hstep; [|discriminate].
    destruct (step_single_flight s s1 e Hs Hstep) as [H1 H2].
    destruct (IH s1 H1 Hr) as [H3 H4]. split; [exact H3|].
    intros Hn Hp. apply andb_prop in Hn as [He Hes].
    apply negb_true_iff in He. auto.
Qed.

Lemma run_app (es1 es2 : list Event) (s : State) :
  run s (es1 ++ es2) =
  match run s es1 with
  | Some s1 => run s1 es2
  | None => None
  end.
Proof.
  revert s. induction es1 as [|e es1 IH]; simpl; intros s; [reflexivity|].
  destruct (step s e); auto.
Qed.

Lemma initial_single_flight : single_flight initial_state.
Proof. split; [reflexivity|apply Nat.le_0_l]. Qed.

(** C1 (amended): in every state a run from the initial state reaches, at
    most one turn is loading, a loading turn exists only while the loading
    flag is true, and the flag is true exactly while a send is suspended.
    The flag being true means that exactly one turn is loading as long as
    no new chat was started since the flag was last false. *)
Theorem single_flight_reachable (es : list Event) (s : State) :
  run initial_state es = Some s ->
  (count_pending (messages s) <= 1)%nat /\
  (count_pending (messages s) = 1%nat -> isLoading s = true) /\
  (isLoading s = false -> count_pending (messages s) = 0%nat) /\
  (isLoading s = true <-> awaiting s = 1%nat) /\
  (forall pre post mid,
      es = pre ++ post ->
      run initial_state pre = Some mid ->
      isLoading mid = false ->
      forallb (fun e => negb (is_new_chat e)) post = true ->
      (isLoading s = true <-> count_pending (messages s) = 1%nat)).
Proof.
  intros Hr.
  destruct (run_single_flight es _ _ initial_single_flight Hr) as [[Ha Hc] _].
  assert (Hp : count_pending (messages s) = 1%nat -> isLoading s = true).
  { intros E. destruct (isLoading s); [reflexivity|]. lia. }
  split; [destruct (isLoading s); lia|].
  split; [exact Hp|].
  split; [intros E; rewrite E in Ha; lia|].
  split; [destruct (isLoading s); split; intros; try reflexivity;
          try discriminate; lia|].
  intros pre post mid -> Hpre Hidle Hn.
  rewrite run_app, Hpre in Hr.
  destruct (run_single_flight pre _ _ initial_single_flight Hpre) as [Hmid _].
  destruct (run_single_flight post _ _ Hmid Hr) as [_ Hshown].
  split; [|exact Hp].
  apply Hshown; [exact Hn|]. intros E. congruence.
Qed.

Lemma single_flight_reachable_witness :
  exists s,
    run initial_state
        [EType (js "hi");
         ESend (mkSendEnv 1700000000000 1700000000000 false false)] = Some s /\
    (isLoading s = true <-> count_pending (messages s) = 1%nat).
Proof.
  eexists. split; [vm_compute; reflexivity|].
  refine (proj2 (proj2 (proj2 (proj2
    (single_flight_reachable
       [EType (js "hi");
        ESend (mkSendEnv 1700000000000 1700000000000 false false)]
       _ _)))) [] _ initial_state _ _ _ _); reflexivity.
Defined.

(** C1, as stated, fails: after a new chat during a send the loading flag
    is true and no turn is loading. *)
Lemma single_flight_claim_fails :
  exists s,
    run initial_state
        [EType (js "hi");
         ESend (mkSendEnv 1700000000000 1700000000000 false false);
         ENewChat] = Some s /\
    isLoading s = true /\
    count_pending (messages s) = 0%nat /\
    ~ (isLoading s = true <-> count_pending (messages s) = 1%nat).
Proof.
  eexists. split; [vm_compute; reflexivity|].
  split; [reflexivity|]. split; [reflexivity|].
  intros [H _]. specialize (H eq_refl). discriminate.
Qed.

(** ** Turn ids *)

Definition ids (s : State) : list Z := map Msg.id (messages s).

Lemma resolvePending_id (c : jsstring) (m : Message) :
  Msg.id (resolvePending c m) = Msg.id m.
Proof. unfold resolvePending. now destruct (Msg.pending m). Qed.

Lemma handleSendMessage_ids (env : SendEnv) (s : State) :
  send_rejected s = false ->
  ids (handleSendMessage env s) = ids s ++ [now_user env; now_bot env + 1].
Proof.
  intros Hg. rewrite (handleSendMessage_accepted env s Hg). unfold ids.
  destruct (throws_before_await env s); simpl.
  - rewrite map_map, map_app.
    rewrite (map_ext _ _ (resolvePending_id apology)). reflexivity.
  - now rewrite map_app.
Qed.

Lemma StronglySorted_lt_snoc (l : list Z) (x : Z) :
  StronglySorted Z.lt l -> Forall (fun i => i < x) l ->
  StronglySorted Z.lt (l ++ [x]).
Proof.
  induction 1 as [|a l Hs IH Ha]; simpl; intros Hx.
  - repeat constructor.
  - inversion Hx as [|? ? Hax Hlx]; subst. constructor; [auto|].
    apply Forall_app. split; [exact Ha|]. repeat constructor. exact Hax.
Qed.

(** The ids stay strictly increasing, hence distinct, as long as every
    send reads a clock value above all ids in use: in particular above the
    placeholder of the send before, which is one more than the clock value
    that send read. *)
Lemma handleSendMessage_ids_sorted (env : SendEnv) (s : State) :
  StronglySorted Z.lt (ids s) ->
  Forall (fun i => i < now_user env) (ids s) ->
  now_user env <= now_bot env ->
  StronglySorted Z.lt (ids (handleSendMessage env s)).
Proof.
  intros Hs Hlt Hle. destruct (send_rejected s) eqn:Hg.
  - unfold handleSendMessage. now rewrite Hg.
  - rewrite (handleSendMessage_ids env s Hg).
    change [now_user env; now_bot env + 1]
      with ([now_user env] ++ [now_bot env + 1]).
    rewrite app_assoc. apply StronglySorted_lt_snoc.
    + now apply StronglySorted_lt_snoc.
    + apply Forall_app. split.
      * eapply Forall_impl; [|exact Hlt]. simpl. intros. lia.
      * repeat constructor. lia.
Qed.

(** C3 (the code breaks it): the placeholder takes the clock value plus
    one, which is the id of a user turn sent one millisecond later.  With
    the first send answered and a second one sent at the next clock value,
    two turns share an id; with both sends at the same clock value the ids
    also go down along the list. *)
Theorem ids_collide :
  (exists s,
      run initial_state
          [EType (js "a");
           ESend (mkSendEnv 1700000000000 1700000000000 false false);
           ESettle (Resolved (js "x"));
           EType (js "b");
           ESend (mkSendEnv 1700000000001 1700000000001 false false)]
      = Some s /\
      ids s = [1; 2; 1700000000000; 1700000000001;
               1700000000001; 1700000000002] /\
      ~ NoDup (ids s)) /\
  (exists s,
      run initial_state
          [EType (js "a");
           ESend (mkSendEnv 1700000000000 1700000000000 true false);
           EType (js "b");
           ESend (mkSendEnv 1700000000000 1700000000000 true false)]
      = Some s /\
      ids s = [1; 2; 1700000000000; 1700000000001;
               1700000000000; 1700000000001] /\
      ~ NoDup (ids s) /\
      ~ StronglySorted Z.le (ids s)).
Proof.
  split.
  - eexists. split; [vm_compute; reflexivity|]. split; [reflexivity|].
    intros H. change (ids _) with
      [1; 2; 1700000000000; 1700000000001; 1700000000001; 1700000000002] in H.
    do 3 (apply NoDup_cons_iff in H as [_ H]).
    apply NoDup_cons_iff in H as [H _]. apply H. now left.
  - eexists. split; [vm_compute; reflexivity|]. split; [reflexivity|].
    split; intros H; change (ids _) with
      [1; 2; 1700000000000; 1700000000001; 1700000000000; 1700000000001] in H.
    + do 2 (apply NoDup_cons_iff in H as [_ H]).
      apply NoDup_cons_iff in H as [H _]. apply H. right. now left.
    + do 3 (apply StronglySorted_inv in H as [H _]).
      apply StronglySorted_inv in H as [_ H].
      apply Forall_inv in H. lia.
Qed.

(** * The rest of the component *)

(** ** What [ChatInput] and [App] render from the state *)

(** [disabled={isLoading}] of the text area and of the attachment and
    screenshot buttons. *)
Definition textarea_disabled (s : State) : bool := isLoading s.

(** [disabled={!message.trim() || isLoading}] of the send button. *)
Definition send_disabled (s : State) : bool :=
  negb (truthy (trim (message s))) || isLoading s.

(** [messages.length === 0]: the welcome text replaces the transcript. *)
Definition shows_welcome (s : State) : bool :=
  Nat.eqb (List.length (messages s)) 0.

(** [msg.type === 'bot' && !msg.isLoading]: the row of action buttons. *)
Definition shows_actions (msg : Message) : bool :=
  match Msg.type msg with
  | bot => negb (Msg.pending msg)
  | user => false
  end.

(** The id and role of a turn, which no handler rewrites. *)
Definition shape (msg : Message) : Z * MessageType :=
  (Msg.id msg, Msg.type msg).

(** Along [es] every send reads the clock above [last], the largest id in
    use, and the clock does not go back inside one send. *)
Fixpoint clock_spaced (last : Z) (es : list Event) : bool :=
  match es with
  | [] => true
  | ESend env :: es' =>
      (last <? now_user env) && (now_user env <=? now_bot env)
      && clock_spaced (now_bot env + 1) es'
  | _ :: es' => clock_spaced last es'
  end.

(** ** More on [trim] *)

Lemma trimStart_split (s : jsstring) :
  exists pre, s = pre ++ trimStart s /\ forallb isWhiteSpace pre = true.
Proof.
  induction s as [|c s [pre [E H]]]; simpl.
  - exists []. auto.
  - destruct (isWhiteSpace c) eqn:W.
    + exists (c :: pre). simpl. rewrite W, H. split; [now f_equal|reflexivity].
    + exists []. auto.
Qed.

Lemma trimStart_hd (s : jsstring) (c : N) :
  hd_error (trimStart s) = Some c -> isWhiteSpace c = false.
Proof.
  induction s as [|a s IH]; simpl; [discriminate|].
  destruct (isWhiteSpace a) eqn:W; [exact IH|].
  simpl. intros E. injection E as <-. exact W.
Qed.

Lemma trimStart_snoc (l : jsstring) (c : N) :
  isWhiteSpace c = false -> trimStart (l ++ [c]) = trimStart l ++ [c].
Proof.
  intros W. induction l as [|a l IH]; simpl.
  - now rewrite W.
  - destruct (isWhiteSpace a); [exact IH|reflexivity].
Qed.

Lemma trimEnd_cons (c : N) (r : jsstring) :
  isWhiteSpace c = false -> trimEnd (c :: r) = c :: trimEnd r.
Proof.
  intros W. unfold trimEnd. simpl.
  rewrite (trimStart_snoc _ _ W), rev_app_distr. reflexivity.
Qed.

Lemma trimEnd_split (s : jsstring) :
  exists post, s = trimEnd s ++ post /\ forallb isWhiteSpace post = true.
Proof.
  destruct (trimStart_split (rev s)) as [pre [E H]].
  exists (rev pre). split.
  - unfold trimEnd. rewrite <- rev_app_distr, <- E. symmetry. apply rev_involutive.
  - now rewrite forallb_rev.
Qed.

Lemma trim_hd (s : jsstring) (c : N) :
  hd_error (trim s) = Some c -> isWhiteSpace c = false.
Proof.
  unfold trim. destruct (trimStart s) as [|a r] eqn:E.
  - discriminate.
  - assert (W : isWhiteSpace a = false)
      by (apply (trimStart_hd s); now rewrite E).
    rewrite (trimEnd_cons _ _ W). simpl. intros H. now injection H as <-.
Qed.

Lemma trim_last (s : jsstring) (c : N) :
  hd_error (rev (trim s)) = Some c -> isWhiteSpace c = false.
Proof.
  unfold trim, trimEnd. rewrite rev_involutive. apply trimStart_hd.
Qed.

Lemma trim_split (s : jsstring) :
  exists pre post,
    s = pre ++ trim s ++ post /\
    forallb isWhiteSpace pre = true /\ forallb isWhiteSpace post = true.
Proof.
  destruct (trimStart_split s) as [pre [E1 H1]].
  destruct (trimEnd_split (trimStart s)) as [post [E2 H2]].
  exists pre, post. unfold trim. rewrite <- E2. auto.
Qed.

(** ** Sending *)

Lemma send_rejected_idle_draft (a : list Message) (b : bool) (c : option Chat)
    (d : list Chat) (n k : nat) :
  send_rejected (mkState a [] b c d n k) = true.
Proof. reflexivity. Qed.

Lemma handleSendMessage_length (env : SendEnv) (s : State) :
  send_rejected s = false ->
  List.length (messages (handleSendMessage env s)) =
  (List.length (messages s) + 2)%nat.
Proof.
  intros Hg. rewrite (handleSendMessage_accepted env s Hg).
  destruct (throws_before_await env s); simpl;
    rewrite ?length_map, length_app; reflexivity.
Qed.

Lemma handleSendMessage_acts_iff (env : SendEnv) (s : State) :
  handleSendMessage env s <> s <-> send_rejected s = false.
Proof.
  split.
  - intros H. destruct (send_rejected s) eqn:Hg; [|reflexivity].
    exfalso. apply H. unfold handleSendMessage. now rewrite Hg.
  - intros Hg E. pose proof (handleSendMessage_length env s Hg) as L.
    rewrite E in L. lia.
Qed.

(** X1: a send repeated without typing in between, as by a double click or
    a key repeat, does what the first send did alone: an accepted send
    clears the draft, so the second one is rejected whatever the clock and
    the remote side do. *)
Theorem handleSendMessage_twice (env1 env2 : SendEnv) (s : State) :
  handleSendMessage env2 (handleSendMessage env1 s) = handleSendMessage env1 s.
Proof.
  destruct (send_rejected s) eqn:Hg.
  - unfold handleSendMessage at 2. rewrite Hg.
    unfold handleSendMessage. now rewrite Hg.
  - rewrite (handleSendMessage_accepted env1 s Hg).
    destruct (throws_before_await env1 s); unfold handleSendMessage;
      now rewrite send_rejected_idle_draft.
Qed.

(** X2: the send button is disabled exactly when the draft holds nothing
    but white space or a send is in flight, and exactly then a send leaves
    the state as it is; when the button is enabled a send appends two turns
    and clears the draft. *)
Theorem send_disabled_iff_noop (env : SendEnv) (s : State) :
  (send_disabled s = true <->
   forallb isWhiteSpace (message s) = true \/ isLoading s = true) /\
  (send_disabled s = true <-> handleSendMessage env s = s) /\
  (send_disabled s = false ->
   List.length (messages (handleSendMessage env s)) =
     (List.length (messages s) + 2)%nat /\
   message (handleSendMessage env s) = [] /\
   shows_welcome (handleSendMessage env s) = false).
Proof.
  change (send_disabled s) with (send_rejected s).
  split; [|split].
  - rewrite send_rejected_iff, trim_nil_iff. reflexivity.
  - pose proof (handleSendMessage_acts_iff env s) as H.
    destruct (send_rejected s) eqn:Hg; split; intros E; auto.
    + unfold handleSendMessage. now rewrite Hg.
    + discriminate.
    + exfalso. apply (proj2 H); auto.
  - intros Hg. pose proof (handleSendMessage_length env s Hg) as L.
    split; [exact L|]. split.
    + rewrite (handleSendMessage_accepted env s Hg).
      now destruct (throws_before_await env s).
    + unfold shows_welcome. rewrite L.
      apply Nat.eqb_neq. lia.
Qed.

Lemma send_disabled_iff_noop_witness :
  let s := mkState [] (js "Hello") false None [] 0 0 in
  let env := mkSendEnv 1700000000000 1700000000000 false false in
  List.length (messages (handleSendMessage env s)) = 2%nat /\
  message (handleSendMessage env s) = [] /\
  shows_welcome (handleSendMessage env s) = false.
Proof.
  intros s env.
  exact (proj2 (proj2 (send_disabled_iff_noop env s)) eq_refl).
Defined.

(** X3: the user turn an accepted send appends holds the draft without the
    white space around it: the draft is white space, the content, white
    space; the content is not empty and neither starts nor ends with white
    space.  The turn is appended at the end of the old turns, with the
    placeholder, or the apology, after it. *)
Theorem handleSendMessage_user_turn (env : SendEnv) (s : State) :
  send_rejected s = false ->
  exists u b pre post,
    nth_error (messages (handleSendMessage env s)) (List.length (messages s))
      = Some u /\
    nth_error (messages (handleSendMessage env s))
              (S (List.length (messages s))) = Some b /\
    Msg.type u = user /\ Msg.type b = bot /\
    Msg.id u = now_user env /\ Msg.id b = now_bot env + 1 /\
    Msg.pending u = false /\
    message s = pre ++ Msg.content u ++ post /\
    forallb isWhiteSpace pre = true /\
    forallb isWhiteSpace post = true /\
    Msg.content u <> [] /\
    (forall c, hd_error (Msg.content u) = Some c -> isWhiteSpace c = false) /\
    (forall c, hd_error (rev (Msg.content u)) = Some c ->
               isWhiteSpace c = false).
Proof.
  intros Hg. destruct (trim_split (message s)) as [pre [post [E [H1 H2]]]].
  assert (Hne : trim (message s) <> []).
  { intros E0. assert (R : send_rejected s = true)
      by (apply send_rejected_iff; now left). congruence. }
  assert (Hnth : forall (l : list Message) x y,
             nth_error (l ++ [x; y]) (List.length l) = Some x /\
             nth_error (l ++ [x; y]) (S (List.length l)) = Some y).
  { intros l x y. induction l as [|a l IH]; simpl; auto. }
  rewrite (handleSendMessage_accepted env s Hg).
  destruct (throws_before_await env s).
  - exists (user_turn env s), (Msg.resolved (placeholder env) apology), pre, post.
    cbn [messages]. rewrite map_app.
    rewrite <- (length_map (resolvePending apology) (messages s)).
    destruct (Hnth (map (resolvePending apology) (messages s))
                   (user_turn env s) (Msg.resolved (placeholder env) apology))
      as [N1 N2].
    split; [exact N1|]. split; [exact N2|].
    repeat (split; [reflexivity|]).
    split; [exact E|]. split; [exact H1|]. split; [exact H2|].
    split; [exact Hne|]. split; intros c; [apply trim_hd|apply trim_last].
  - exists (user_turn env s), (placeholder env), pre, post.
    cbn [messages].
    destruct (Hnth (messages s) (user_turn env s) (placeholder env))
      as [N1 N2].
    split; [exact N1|]. split; [exact N2|].
    repeat (split; [reflexivity|]).
    split; [exact E|]. split; [exact H1|]. split; [exact H2|].
    split; [exact Hne|]. split; intros c; [apply trim_hd|apply trim_last].
Qed.

Lemma handleSendMessage_user_turn_witness :
  exists u,
    nth_error
      (messages (handleSendMessage
                   (mkSendEnv 1700000000000 1700000000000 false false)
                   (mkState initial_messages (js "  Namaste ") false None [] 0 0)))
      2 = Some u /\
    Msg.type u = user /\ Msg.content u <> [].
Proof.
  destruct (handleSendMessage_user_turn
              (mkSendEnv 1700000000000 1700000000000 false false)
              (mkState initial_messages (js "  Namaste ") false None [] 0 0)
              eq_refl)
    as [u [b [pre [post [H1 [_ [H3 [_ [_ [_ [_ [_ [_ [_ [H11 _]]]]]]]]]]]]]]].
  exists u. split; [exact H1|]. split; [exact H3|exact H11].
Defined.

(** ** The transcript along a run *)

Lemma shape_resolvePending (c : jsstring) (m : Message) :
  shape (resolvePending c m) = shape m.
Proof. unfold resolvePending. now destruct (Msg.pending m). Qed.

Lemma step_shape (s s' : State) (e : Event) :
  is_new_chat e = false -> step s e = Some s' ->
  exists more, map shape (messages s') = map shape (messages s) ++ more.
Proof.
  destruct e; simpl; intros Hn Hs; try discriminate.
  - injection Hs as <-. exists []. now rewrite app_nil_r.
  - injection Hs as <-. destruct (send_rejected s) eqn:Hg.
    + unfold handleSendMessage. rewrite Hg. exists []. now rewrite app_nil_r.
    + rewrite (handleSendMessage_accepted env s Hg).
      exists [(now_user env, user); (now_bot env + 1, bot)].
      destruct (throws_before_await env s); simpl.
      * rewrite map_map, map_app.
        rewrite (map_ext _ _ (shape_resolvePending apology)). reflexivity.
      * now rewrite map_app.
  - unfold resume in Hs. destruct (awaiting s); [discriminate|].
    injection Hs as <-. exists []. rewrite app_nil_r.
    destruct o; simpl; rewrite map_map; apply map_ext;
      apply shape_resolvePending.
  - injection Hs as <-. exists []. rewrite app_nil_r. simpl.
    rewrite map_map. apply map_ext. intros m.
    now destruct (Msg.id m =? messageId).
  - injection Hs as <-. exists []. rewrite app_nil_r. simpl.
    rewrite map_map. apply map_ext. intros m.
    now destruct (Msg.id m =? messageId).
Qed.

(** X4: no handler but [handleNewChat] removes, reorders or re-labels a
    turn: along a run without a new chat the ids and roles of the turns at
    the start stay where they are, and turns are only added after them.  So
    a transcript that is not empty stays so, and the welcome text is not
    shown again. *)
Theorem transcript_grows (es : list Event) (s s' : State) :
  forallb (fun e => negb (is_new_chat e)) es = true ->
  run s es = Some s' ->
  (exists more, map shape (messages s') = map shape (messages s) ++ more) /\
  (List.length (messages s) <= List.length (messages s'))%nat /\
  (shows_welcome s = false -> shows_welcome s' = false).
Proof.
  intros Hn Hr.
  assert (H : exists more,
             map shape (messages s') = map shape (messages s) ++ more).
  { revert s Hn Hr. induction es as [|e es IH]; simpl; intros s Hn Hr.
    - injection Hr as <-. exists []. now rewrite app_nil_r.
    - apply andb_prop in Hn as [He Hes]. apply negb_true_iff in He.
      destruct (step s e) as [s1|] eqn:Hs; [|discriminate].
      destruct (step_shape s s1 e He Hs) as [m1 E1].
      destruct (IH s1 Hes Hr) as [m2 E2].
      exists (m1 ++ m2). now rewrite E2, E1, app_assoc. }
  split; [exact H|].
  assert (L : (List.length (messages s) <= List.length (messages s'))%nat).
  { destruct H as [more E]. apply (f_equal (@List.length _)) in E.
    rewrite length_app, !length_map in E. lia. }
  split; [exact L|].
  unfold shows_welcome. rewrite !Nat.eqb_neq. lia.
Qed.

Lemma transcript_grows_witness :
  exists s',
    run initial_state
        [EType (js "hi");
         ESend (mkSendEnv 1700000000000 1700000000000 false false);
         ERegenerate 2; ESettle Rejected] = Some s' /\
    (List.length (messages initial_state) <= List.length (messages s'))%nat.
Proof.
  eexists. split; [vm_compute; reflexivity|].
  refine (proj1 (proj2 (transcript_grows
    [EType (js "hi");
     ESend (mkSendEnv 1700000000000 1700000000000 false false);
     ERegenerate 2; ESettle Rejected] initial_state _ _ _))); reflexivity.
Defined.

(** X5: in a state a run from the initial state reaches, a settlement is
    awaited exactly while the loading flag is true: with the flag true the
    awaited call can settle, in either way, and that leaves the flag false
    and no turn loading, so the send button works again for a draft that is
    not blank; with the flag false there is nothing to settle. *)
Theorem settle_progress (es : list Event) (s : State) :
  run initial_state es = Some s ->
  (isLoading s = true ->
   forall o, exists s',
     step s (ESettle o) = Some s' /\
     isLoading s' = false /\
     count_pending (messages s') = 0%nat /\
     textarea_disabled s' = false /\
     send_disabled s' = negb (truthy (trim (message s)))) /\
  (isLoading s = false -> forall o, step s (ESettle o) = None).
Proof.
  intros Hr.
  destruct (run_single_flight es _ _ initial_single_flight Hr) as [[Ha _] _].
  split.
  - intros Hl o. rewrite Hl in Ha. simpl.
    rewrite resume_awaiting by lia. eexists. split; [reflexivity|].
    unfold send_disabled, textarea_disabled. simpl.
    rewrite count_pending_resolved, orb_false_r. auto.
  - intros Hl o. rewrite Hl in Ha. simpl. unfold resume. now rewrite Ha.
Qed.

Lemma settle_progress_witness :
  exists s s',
    run initial_state
        [EType (js "hi");
         ESend (mkSendEnv 1700000000000 1700000000000 false false);
         ENewChat] = Some s /\
    step s (ESettle Rejected) = Some s' /\ isLoading s' = false.
Proof.
  eexists. 
  assert (R : run initial_state
        [EType (js "hi");
         ESend (mkSendEnv 1700000000000 1700000000000 false false);
         ENewChat]
      = Some (mkState [] [] true None
                [mkChat 0 (map toHistoryEntry initial_messages)] 1 0))
    by reflexivity.
  destruct (proj1 (settle_progress _ _ R) eq_refl Rejected)
    as [s' [H1 [H2 _]]].
  exists s'. split; [exact R|]. split; [exact H1|exact H2].
Defined.

(** ** Ids under a clock that advances *)

Lemma StronglySorted_lt_NoDup (l : list Z) :
  StronglySorted Z.lt l -> NoDup l.
Proof.
  induction 1 as [|a l Hs IH Ha]; constructor; [|exact IH].
  intros Hin. rewrite Forall_forall in Ha. specialize (Ha a Hin). lia.
Qed.

Lemma step_ids_kept (s s' : State) (e : Event) :
  step s e = Some s' ->
  match e with
  | ESend _ | ENewChat => True
  | _ => ids s' = ids s
  end.
Proof.
  destruct e; simpl; intros Hs; auto.
  - now injection Hs as <-.
  - unfold resume in Hs. destruct (awaiting s); [discriminate|].
    injection Hs as <-. unfold ids. destruct o; simpl; rewrite map_map;
      apply map_ext; apply resolvePending_id.
  - injection Hs as <-. unfold ids. simpl. rewrite map_map. apply map_ext.
    intros m. now destruct (Msg.id m =? messageId).
  - injection Hs as <-. unfold ids. simpl. rewrite map_map. apply map_ext.
    intros m. now destruct (Msg.id m =? messageId).
Qed.

Lemma run_ids_sorted (es : list Event) (last : Z) (s s' : State) :
  StronglySorted Z.lt (ids s) ->
  Forall (fun i => i <= last) (ids s) ->
  clock_spaced last es = true ->
  run s es = Some s' ->
  StronglySorted Z.lt (ids s').
Proof.
  revert last s. induction es as [|e es IH]; simpl; intros last s Hs Hb Hc Hr.
  - now injection Hr as <-.
  - destruct (step s e) as [s1|] eqn:Hstep; [|discriminate].
    pose proof (step_ids_kept s s1 e Hstep) as Hk.
    destruct e; try (rewrite <- Hk in Hs, Hb; eapply IH; eauto; fail).
    + apply andb_prop in Hc as [Hc Hc3]. apply andb_prop in Hc as [Hc1 Hc2].
      apply Z.ltb_lt in Hc1. apply Z.leb_le in Hc2.
      simpl in Hstep. injection Hstep as <-.
      apply (IH (now_bot env + 1) (handleSendMessage env s)); auto.
      * apply handleSendMessage_ids_sorted; auto.
        eapply Forall_impl; [|exact Hb]. simpl. intros. lia.
      * destruct (send_rejected s) eqn:Hg.
        -- unfold handleSendMessage. rewrite Hg.
           eapply Forall_impl; [|exact Hb]. simpl. intros. lia.
        -- rewrite (handleSendMessage_ids env s Hg). apply Forall_app. split.
           ++ eapply Forall_impl; [|exact Hb]. simpl. intros. lia.
           ++ repeat constructor; lia.
    + simpl in Hstep. injection Hstep as <-.
      apply (IH last (handleNewChat s)); auto; constructor.
Qed.

(** X6: when every send reads the clock above the largest id handed out so
    far, which for the send before is its clock value plus one, and the
    clock does not go back inside a send, then in every state a run from
    the initial state reaches the ids go strictly up along the transcript
    and no two turns share one. *)
Theorem ids_distinct_spaced_clock (es : list Event) (s : State) :
  clock_spaced 2 es = true ->
  run initial_state es = Some s ->
  StronglySorted Z.lt (ids s) /\ NoDup (ids s).
Proof.
  intros Hc Hr.
  assert (H : StronglySorted Z.lt (ids s)).
  { apply (run_ids_sorted es 2 initial_state s); auto.
    - repeat constructor.
    - change (ids initial_state) with [1; 2].
      apply Forall_cons; [lia|]. apply Forall_cons; [lia|]. apply Forall_nil. }
  split; [exact H|now apply StronglySorted_lt_NoDup].
Qed.

Lemma ids_distinct_spaced_clock_witness :
  exists s,
    run initial_state
        [EType (js "a");
         ESend (mkSendEnv 1700000000000 1700000000000 false false);
         ESettle (Resolved (js "x"));
         EType (js "b");
         ESend (mkSendEnv 1700000000002 1700000000002 false false)] = Some s /\
    NoDup (ids s).
Proof.
  eexists. split; [vm_compute; reflexivity|].
  refine (proj2 (ids_distinct_spaced_clock
    [EType (js "a");
     ESend (mkSendEnv 1700000000000 1700000000000 false false);
     ESettle (Resolved (js "x"));
     EType (js "b");
     ESend (mkSendEnv 1700000000002 1700000000002 false false)] _ _ _));
    reflexivity.
Defined.

(** ** How the handlers compose *)

(** X7: feedback and regeneration do not interfere: for any two ids, equal
    or not, toggling feedback and regenerating give the same state in either
    order. *)
Theorem handleFeedback_handleRegenerate_commute
    (i j : Z) (k : FeedbackType) (s : State) :
  handleFeedback i k (handleRegenerate j s) =
  handleRegenerate j (handleFeedback i k s).
Proof.
  unfold handleFeedback, handleRegenerate, exec, setMessages. simpl.
  f_equal. rewrite !map_map. apply map_ext. intros m.
  destruct (Msg.id m =? i) eqn:Ei, (Msg.id m =? j) eqn:Ej; simpl;
    rewrite ?Ei, ?Ej; reflexivity.
Qed.

(** X8: feedback toggled while the answer is still loading is kept by the
    settlement: toggling and then settling gives the state that settling
    and then toggling gives, and neither can be done exactly when the other
    order cannot. *)
Theorem handleFeedback_resume_commute
    (i : Z) (k : FeedbackType) (o : Outcome) (s : State) :
  resume o (handleFeedback i k s) = option_map (handleFeedback i k) (resume o s).
Proof.
  unfold resume, handleFeedback. simpl.
  destruct (awaiting s); [reflexivity|].
  simpl. f_equal.
  destruct o; unfold exec, bind, catch_block, finally_block, setMessages,
    setIsLoading, console_error; simpl; f_equal;
    rewrite !map_map; apply map_ext; intros [mid mty mc mfb [[]|]];
    unfold resolvePending, Msg.pending; simpl;
    destruct (mid =? i); reflexivity.
Qed.

(** X9: when the session cannot be created, the failed exchange stays in
    the transcript, and the session a later send creates is given it as
    history: the user text as a [user] entry and the apology as a [model]
    entry, after the entries of the older turns. *)
Theorem failed_send_enters_history
    (env1 env2 : SendEnv) (draft : jsstring) (s : State) :
  send_rejected s = false ->
  chatRef s = None ->
  create_throws env1 = true ->
  count_pending (messages s) = 0%nat ->
  trim draft <> [] ->
  create_throws env2 = false ->
  let s1 := handleSendMessage env1 s in
  let s2 := handleSendMessage env2 (exec (setMessage draft) s1) in
  chatRef s1 = None /\
  exists c,
    chatRef s2 = Some c /\ created s2 = created s ++ [c] /\
    history c =
      map toHistoryEntry (messages s)
      ++ [mkEntry RoleUser (trim (message s)); mkEntry RoleModel apology].
Proof.
  intros Hg Hc Ht1 Hp Hd Ht2 s1 s2. subst s2 s1.
  rewrite (handleSendMessage_accepted env1 s Hg).
  unfold throws_before_await, session_after, created_after.
  rewrite Hc, Ht1. simpl. split; [reflexivity|].
  match goal with
  | |- context [handleSendMessage env2 ?st] => set (t := st)
  end.
  assert (Hg2 : send_rejected t = false).
  { unfold send_rejected, t. simpl.
    destruct (trim draft); [contradiction|reflexivity]. }
  rewrite (handleSendMessage_accepted env2 t Hg2).
  unfold session_after, created_after, t. simpl. rewrite Ht2.
  rewrite map_app, (resolvePending_none apology _ Hp).
  eexists.
  destruct (throws_before_await env2 _); simpl;
    (split; [reflexivity|]; split; [reflexivity|]);
    rewrite map_app; reflexivity.
Qed.

Lemma failed_send_enters_history_witness :
  let s := mkState [] (js "Hello") false None [] 0 0 in
  let s1 := handleSendMessage (mkSendEnv 10 10 true false) s in
  let s2 := handleSendMessage (mkSendEnv 20 20 false false)
                              (exec (setMessage (js "again")) s1) in
  exists c,
    chatRef s2 = Some c /\
    history c = [mkEntry RoleUser (js "Hello"); mkEntry RoleModel apology].
Proof.
  intros s s1 s2.
  destruct (failed_send_enters_history
              (mkSendEnv 10 10 true false) (mkSendEnv 20 20 false false)
              (js "again") s eq_refl eq_refl eq_refl eq_refl)
    as [_ [c [H1 [_ H3]]]].
  - vm_compute. discriminate.
  - reflexivity.
  - exists c. split; [exact H1|exact H3].
Defined.

(** X10: a new chat forgets: whatever the state before, the first send
    accepted after a new chat, also when a pending call settles in between,
    creates a new session with an empty history when the creation
    succeeds. *)
Theorem handleNewChat_forgets
    (env : SendEnv) (draft : jsstring) (s : State) :
  trim draft <> [] ->
  create_throws env = false ->
  (isLoading s = false ->
   exists c,
     chatRef (submit draft env (handleNewChat s)) = Some c /\
     history c = [] /\
     created (submit draft env (handleNewChat s)) = created s ++ [c]) /\
  (forall o s1,
     resume o (handleNewChat s) = Some s1 ->
     exists c,
       chatRef (submit draft env s1) = Some c /\
       history c = [] /\
       created (submit draft env s1) = created s ++ [c]).
Proof.
  intros Hd Ht.
  assert (Hgen : forall t,
             messages t = [] -> chatRef t = None -> isLoading t = false ->
             exists c,
               chatRef (submit draft env t) = Some c /\ history c = [] /\
               created (submit draft env t) = created t ++ [c]).
  { intros t Hm Hc Hl. unfold submit.
    assert (Hg : send_rejected (exec (setMessage draft) t) = false).
    { unfold send_rejected. simpl. rewrite Hl.
      destruct (trim draft); [contradiction|reflexivity]. }
    rewrite (handleSendMessage_accepted env _ Hg).
    unfold session_after, created_after, throws_before_await. simpl.
    rewrite Hc, Ht, Hm. eexists.
    destruct (send_throws env); simpl; repeat split. }
  split.
  - intros Hl. apply (Hgen (handleNewChat s)); auto.
  - intros o s1 Hr. unfold resume in Hr. simpl in Hr.
    destruct (awaiting s); [discriminate|]. injection Hr as <-.
    destruct o;
      match goal with
      | |- context [submit draft env ?t] =>
          destruct (Hgen t eq_refl eq_refl eq_refl) as [c H];
          exists c; exact H
      end.
Qed.

Lemma handleNewChat_forgets_witness :
  exists c,
    chatRef (submit (js "hi")
               (mkSendEnv 1700000000000 1700000000000 false false)
               (handleNewChat initial_state)) = Some c /\
    history c = [].
Proof.
  destruct (proj1 (handleNewChat_forgets
                     (mkSendEnv 1700000000000 1700000000000 false false)
                     (js "hi") initial_state
                     ltac:(vm_compute; discriminate) eq_refl) eq_refl)
    as [c [H1 [H2 _]]].
  exists c. split; [exact H1|exact H2].
Defined.

(** ** Theme, sidebar, keyboard and platform collaborators *)

(** [a === b] on strings. *)
Fixpoint jsstring_eqb (a b : jsstring) : bool :=
  match a, b with
  | [], [] => true
  | x :: a', y :: b' => N.eqb x y && jsstring_eqb a' b'
  | _, _ => false
  end.

(** The record [themeConfig] returns. *)
Record Theme := mkTheme {
  bgColor : jsstring;
  textColor : jsstring;
  borderColor : jsstring;
  hoverBg : jsstring;
  messageBg : jsstring;
  shadow : jsstring
}.

Definition themeConfig (darkMode : bool) : Theme :=
  mkTheme
    (if darkMode then js "bg-black" else js "bg-white")
    (if darkMode then js "text-white" else js "text-black")
    (if darkMode then js "border-white" else js "border-black")
    (if darkMode then js "hover:bg-white hover:text-black"
     else js "hover:bg-black hover:text-white")
    (if darkMode then js "bg-white text-black" else js "bg-black text-white")
    (if darkMode then js "shadow-white/30" else js "shadow-black/30").

(** An entry of [sidebarItems]; none of the four defines [onClick], and
    [isAction] is [None] where the field is missing. *)
Record SidebarItem := mkSidebarItem {
  label : jsstring;
  isAction : option bool
}.

Definition sidebarItems : list SidebarItem :=
  [ mkSidebarItem (js "Settings") None;
    mkSidebarItem (js "Profile") None;
    mkSidebarItem (js "Pinned Chats") None;
    mkSidebarItem (js "History") None ].

(** [handleNavigation(section, setActiveSection)] *)
Definition handleNavigation {A} (section : jsstring)
    (setActiveSection : jsstring -> A) : A :=
  setActiveSection section.

(** The click on an item: [onClick || (() => handleNavigation(label,
    setActiveSection))], as the new value of [activeSection]. *)
Definition sidebar_click (item : SidebarItem) : jsstring :=
  handleNavigation (label item) (fun section => section).

(** The last part of the [className] of an item:
    [activeSection === label && !isAction
       ? (theme.bgColor === 'bg-black' ? 'bg-white/20' : 'bg-black/10') : ''] *)
Definition sidebar_item_class (theme : Theme) (activeSection : jsstring)
    (item : SidebarItem) : jsstring :=
  if jsstring_eqb activeSection (label item)
     && negb (match isAction item with Some b => b | None => false end)
  then (if jsstring_eqb (bgColor theme) (js "bg-black")
        then js "bg-white/20" else js "bg-black/10")
  else [].

(** The highlight of the Like button in [MessageItem]:
    [msg.feedback === 'Like'
       ? (theme.textColor === 'text-white' ? 'bg-green-500/50'
                                            : 'bg-green-500/20') : ''] *)
Definition like_class (theme : Theme) (msg : Message) : jsstring :=
  if feedback_is (Msg.feedback msg) Like
  then (if jsstring_eqb (textColor theme) (js "text-white")
        then js "bg-green-500/50" else js "bg-green-500/20")
  else [].

(** The fields of the [KeyboardEvent] that [handleKeyDown] reads. *)
Record KeyboardEvent := mkKeyboardEvent {
  key : jsstring;
  shiftKey : bool
}.

(** [handleKeyDown]: whether [preventDefault] was called, and the state. *)
Definition handleKeyDown (e : KeyboardEvent) (env : SendEnv) (s : State)
  : bool * State :=
  if jsstring_eqb (key e) (js "Enter") && negb (shiftKey e)
  then (true, handleSendMessage env s)
  else (false, s).

(** What the handlers do to the platform, in order. *)
Inductive PlatformEffect :=
| NavigatorShare (title text : jsstring)
| ClipboardWriteText (content : jsstring)
| WindowAlert (msg : jsstring)
| ConsoleError
| UnhandledRejection.

(** The platform as one call of [handleShare] or [handleCopy] finds it. *)
Record Navigator := mkNavigator {
  (** [navigator.share] is truthy *)
  share_defined : bool;
  (** the promise of [navigator.share] is fulfilled *)
  share_fulfils : bool;
  (** [navigator.clipboard] is defined (it is not outside secure contexts) *)
  clipboard_defined : bool;
  (** the promise of [writeText] is fulfilled *)
  clipboard_fulfils : bool
}.

(** [handleCopy]: the effects, and the promise it returns ([true] when
    fulfilled) unless reading [writeText] of [undefined] throws. *)
Definition handleCopy (nav : Navigator) (content : jsstring)
  : list PlatformEffect * Completion bool :=
  if clipboard_defined nav
  then ([ClipboardWriteText content], Normal (clipboard_fulfils nav))
  else ([], Throw).

Definition share_title : jsstring := js "VedicSTEM AI Chat".

Definition share_alert : jsstring :=
  js "Content copied to clipboard. You can now share it.".

(** [handleShare], followed until its promise chain has run. *)
Definition handleShare (nav : Navigator) (content : jsstring)
  : list PlatformEffect * Completion unit :=
  if share_defined nav
  then ([NavigatorShare share_title content]
          ++ (if share_fulfils nav then [] else [ConsoleError]),
        Normal tt)
  else
    match handleCopy nav content with
    | (effs, Normal true) => (effs ++ [WindowAlert share_alert], Normal tt)
    | (effs, Normal false) => (effs ++ [UnhandledRejection], Normal tt)
    | (effs, Throw) => (effs, Throw)
    end.

(** [MessageItem]: the state [isCopied] and the [setTimeout] callbacks of
    [onCopy] that have not run yet. *)
Record CopyState := mkCopyState {
  isCopied : bool;
  timers : nat
}.

Inductive CopyEvent :=
| CopyClick (nav : Navigator) (content : jsstring)
                                (* [onCopy], followed to the end of [then] *)
| TimerFires.                   (* one callback of [setTimeout] runs *)

Definition copy_step (st : CopyState) (e : CopyEvent) : option CopyState :=
  match e with
  | CopyClick nav content =>
      match handleCopy nav content with
      | (_, Normal true) => Some (mkCopyState true (S (timers st)))
      | _ => Some st
      end
  | TimerFires =>
      match timers st with
      | O => None
      | S n => Some (mkCopyState false n)
      end
  end.

Fixpoint copy_run (st : CopyState) (es : list CopyEvent) : option CopyState :=
  match es with
  | [] => Some st
  | e :: es' =>
      match copy_step st e with
      | Some st' => copy_run st' es'
      | None => None
      end
  end.

(** The title of the copy button: [isCopied ? "Copied!" : "Copy"]. *)
Definition copy_title (st : CopyState) : jsstring :=
  if isCopied st then js "Copied!" else js "Copy".

Lemma jsstring_eqb_eq (a b : jsstring) : jsstring_eqb a b = true <-> a = b.
Proof.
  revert b. induction a as [|x a IH]; intros [|y b]; simpl;
    try (split; [discriminate|discriminate]); [tauto|].
  rewrite andb_true_iff, N.eqb_eq, IH. split.
  - intros [-> ->]. reflexivity.
  - intros E. injection E as -> ->. auto.
Qed.

(** X11: the two tests by which components tell the dark theme, the
    sidebar on [bgColor] and the message row on [textColor], both give back
    the flag the theme was built from; and the colours of the user bubble
    and of the hover state are the page colours of the other mode. *)
Theorem themeConfig_detects_mode (darkMode : bool) :
  jsstring_eqb (bgColor (themeConfig darkMode)) (js "bg-black") = darkMode /\
  jsstring_eqb (textColor (themeConfig darkMode)) (js "text-white") = darkMode /\
  messageBg (themeConfig darkMode) =
    bgColor (themeConfig (negb darkMode)) ++ js " "
    ++ textColor (themeConfig (negb darkMode)) /\
  hoverBg (themeConfig darkMode) =
    js "hover:" ++ bgColor (themeConfig (negb darkMode)) ++ js " hover:"
    ++ textColor (themeConfig (negb darkMode)) /\
  (forall msg,
     like_class (themeConfig darkMode) msg =
     if feedback_is (Msg.feedback msg) Like
     then (if darkMode then js "bg-green-500/50" else js "bg-green-500/20")
     else []).
Proof.
  destruct darkMode; repeat split; intros msg; unfold like_class;
    destruct (feedback_is (Msg.feedback msg) Like); reflexivity.
Qed.

(** X12: a click on a sidebar item highlights that item and no other, in
    the colour of the theme; and whatever [activeSection] holds, at most
    one item is highlighted, none when it names no item. *)
Theorem sidebar_highlights_clicked (darkMode : bool) (item other : SidebarItem) :
  In item sidebarItems -> In other sidebarItems ->
  (sidebar_item_class (themeConfig darkMode) (sidebar_click item) other <> []
   <-> other = item) /\
  sidebar_item_class (themeConfig darkMode) (sidebar_click item) item =
    (if darkMode then js "bg-white/20" else js "bg-black/10") /\
  (forall activeSection,
     (List.length
        (filter (fun i => truthy (sidebar_item_class (themeConfig darkMode)
                                                     activeSection i))
                sidebarItems) <= 1)%nat /\
     ((forall i, In i sidebarItems -> label i <> activeSection) ->
      forall i, In i sidebarItems ->
                sidebar_item_class (themeConfig darkMode) activeSection i = [])).
Proof.
  intros Hi Ho. split; [|split].
  - simpl in Hi, Ho.
    destruct Hi as [<-|[<-|[<-|[<-|[]]]]], Ho as [<-|[<-|[<-|[<-|[]]]]];
      destruct darkMode; vm_compute; split; intros H;
      try reflexivity; try discriminate; try (exfalso; apply H; reflexivity).
  - simpl in Hi. destruct Hi as [<-|[<-|[<-|[<-|[]]]]];
      destruct darkMode; reflexivity.
  - intros a. split.
    + unfold sidebarItems, sidebar_item_class. cbn [filter label isAction].
      rewrite !andb_true_r.
      destruct (jsstring_eqb a (js "Settings")) eqn:E1;
        [apply jsstring_eqb_eq in E1; subst a; destruct darkMode;
         vm_compute; lia|].
      destruct (jsstring_eqb a (js "Profile")) eqn:E2;
        [apply jsstring_eqb_eq in E2; subst a; destruct darkMode;
         vm_compute; lia|].
      destruct (jsstring_eqb a (js "Pinned Chats")) eqn:E3;
        [apply jsstring_eqb_eq in E3; subst a; destruct darkMode;
         vm_compute; lia|].
      destruct (jsstring_eqb a (js "History")) eqn:E4;
        destruct darkMode; simpl; lia.
    + intros Hno i Hin. unfold sidebar_item_class.
      destruct (jsstring_eqb a (label i)) eqn:E; [|reflexivity].
      apply jsstring_eqb_eq in E. exfalso. apply (Hno i Hin). now symmetry.
Qed.

Lemma sidebar_highlights_clicked_witness :
  sidebar_item_class (themeConfig true)
    (sidebar_click (mkSidebarItem (js "History") None))
    (mkSidebarItem (js "History") None) = js "bg-white/20".
Proof.
  refine (proj1 (proj2 (sidebar_highlights_clicked true
    (mkSidebarItem (js "History") None) (mkSidebarItem (js "History") None)
    _ _))); simpl; auto.
Defined.

(** X13: a key press changes the state only when it is Enter without
    Shift, the draft is not blank and no send is in flight; then it does
    what the send button does.  Enter without Shift suppresses the default
    action, the line break, also when the send is rejected; Shift+Enter and
    every other key keep it. *)
Theorem handleKeyDown_spec (e : KeyboardEvent) (env : SendEnv) (s : State) :
  (snd (handleKeyDown e env s) <> s <->
   key e = js "Enter" /\ shiftKey e = false /\ send_disabled s = false) /\
  (fst (handleKeyDown e env s) = true <->
   key e = js "Enter" /\ shiftKey e = false) /\
  (key e = js "Enter" -> shiftKey e = false ->
   snd (handleKeyDown e env s) = handleSendMessage env s) /\
  (shiftKey e = true -> handleKeyDown e env s = (false, s)).
Proof.
  unfold handleKeyDown. change (send_disabled s) with (send_rejected s).
  pose proof (jsstring_eqb_eq (key e) (js "Enter")) as K.
  pose proof (handleSendMessage_acts_iff env s) as A.
  destruct (jsstring_eqb (key e) (js "Enter")) eqn:Ek,
           (shiftKey e) eqn:Es; simpl.
  all: repeat split; try tauto; try discriminate; try reflexivity.
  all: try (intros H; exfalso; now apply H).
  all: try (intros [H1 [H2 H3]]; try discriminate;
            try (apply K in H1; discriminate); now apply A).
  all: try (intros [H1 H2]; try discriminate; apply K in H1; discriminate).
  all: try (intros H; apply A in H; repeat split; tauto).
  all: try (intros H1; apply K in H1; discriminate).
Qed.

Lemma handleKeyDown_spec_witness :
  handleKeyDown (mkKeyboardEvent (js "Enter") true)
                (mkSendEnv 1700000000000 1700000000000 false false)
                (mkState initial_messages (js "hi") false None [] 0 0)
  = (false, mkState initial_messages (js "hi") false None [] 0 0).
Proof.
  exact (proj2 (proj2 (proj2
    (handleKeyDown_spec (mkKeyboardEvent (js "Enter") true)
       (mkSendEnv 1700000000000 1700000000000 false false)
       (mkState initial_messages (js "hi") false None [] 0 0)))) eq_refl).
Defined.

(** X14: [handleShare] uses the native share when there is one and then
    never touches the clipboard nor alerts, even when sharing fails, which
    is only logged.  Without it, the content goes to the clipboard as it is,
    and the alert is shown exactly when that write succeeded; a failed write
    is not logged: the rejection is left unhandled, and with no clipboard
    object at all the handler throws. *)
Theorem handleShare_effects (nav : Navigator) (content : jsstring) :
  let effs := fst (handleShare nav content) in
  (forall t c, In (NavigatorShare t c) effs <->
               share_defined nav = true /\ t = share_title /\ c = content) /\
  (forall c, In (ClipboardWriteText c) effs <->
             share_defined nav = false /\ clipboard_defined nav = true /\
             c = content) /\
  (forall m, In (WindowAlert m) effs <->
             share_defined nav = false /\ clipboard_defined nav = true /\
             clipboard_fulfils nav = true /\ m = share_alert) /\
  (In ConsoleError effs <->
   share_defined nav = true /\ share_fulfils nav = false) /\
  (In UnhandledRejection effs <->
   share_defined nav = false /\ clipboard_defined nav = true /\
   clipboard_fulfils nav = false) /\
  (snd (handleShare nav content) = Throw <->
   share_defined nav = false /\ clipboard_defined nav = false).
Proof.
  destruct nav as [sd sf cd cf]. unfold handleShare, handleCopy. simpl.
  destruct sd, sf, cd, cf; simpl; repeat split; intros;
    intuition (subst; try discriminate; try congruence; auto).
Qed.

Lemma copy_run_indicator (es : list CopyEvent) (st st' : CopyState) :
  (isCopied st = true -> timers st <> 0%nat) ->
  copy_run st es = Some st' ->
  isCopied st' = true -> timers st' <> 0%nat.
Proof.
  revert st. induction es as [|e es IH]; simpl; intros st Hinv Hr.
  - now injection Hr as <-.
  - destruct (copy_step st e) as [st1|] eqn:Hs; [|discriminate].
    apply (IH st1); [|exact Hr].
    destruct e as [nav content|]; simpl in Hs.
    + destruct (handleCopy nav content) as [effs [[]|]];
        injection Hs as <-; simpl; auto.
    + destruct (timers st); [discriminate|]. injection Hs as <-.
      simpl. discriminate.
Qed.

(** X15: the "Copied!" title of a message's copy button never gets stuck:
    in every state reached from the initial one, while it is shown a timer
    that clears it is still to run; a copy that fails leaves the title as
    it is; and a timer clears the title even when a later copy's timer is
    still to run. *)
Theorem copied_indicator_clears (es : list CopyEvent) (st : CopyState) :
  copy_run (mkCopyState false 0) es = Some st ->
  (isCopied st = true -> timers st <> 0%nat) /\
  (isCopied st = true ->
   exists st', copy_step st TimerFires = Some st' /\
               copy_title st' = js "Copy") /\
  (forall nav content,
     clipboard_defined nav && clipboard_fulfils nav = false ->
     copy_step st (CopyClick nav content) = Some st) /\
  (forall nav content,
     clipboard_defined nav && clipboard_fulfils nav = true ->
     exists st', copy_step st (CopyClick nav content) = Some st' /\
                 copy_title st' = js "Copied!" /\
                 timers st' = S (timers st)).
Proof.
  intros Hr.
  assert (Hinv : isCopied st = true -> timers st <> 0%nat).
  { apply (copy_run_indicator es (mkCopyState false 0) st); auto.
    simpl. discriminate. }
  split; [exact Hinv|]. split; [|split].
  - intros Hc. specialize (Hinv Hc). simpl.
    destruct (timers st); [contradiction|]. eexists. split; reflexivity.
  - intros nav content H. unfold copy_step, handleCopy.
    destruct (clipboard_defined nav), (clipboard_fulfils nav);
      try discriminate; reflexivity.
  - intros nav content H. unfold copy_step, handleCopy.
    destruct (clipboard_defined nav), (clipboard_fulfils nav);
      try discriminate. eexists. repeat split.
Qed.

Lemma copied_indicator_clears_witness :
  exists st,
    copy_run (mkCopyState false 0)
             [CopyClick (mkNavigator false false true true) (js "text");
              CopyClick (mkNavigator false false true true) (js "text");
              TimerFires] = Some st /\
    (isCopied st = true -> timers st <> 0%nat).
Proof.
  eexists. split; [reflexivity|].
  exact (proj1 (copied_indicator_clears
    [CopyClick (mkNavigator false false true true) (js "text");
     CopyClick (mkNavigator false false true true) (js "text");
     TimerFires] (mkCopyState false 1) eq_refl)).
Defined.

(** ** Where the loading turn is *)

(** A user turn is not loading and not empty. *)
Definition user_turn_ok (m : Message) : Prop :=
  Msg.type m = user -> Msg.pending m = false /\ Msg.content m <> [].

(** Only the last turn may be loading, and user turns are as above. *)
Definition transcript_ok (s : State) : Prop :=
  Forall user_turn_ok (messages s) /\
  count_pending (removelast (messages s)) = 0%nat.

Lemma removelast_map_msg (f : Message -> Message) (l : list Message) :
  removelast (map f l) = map f (removelast l).
Proof.
  induction l as [|a l IH]; simpl; [reflexivity|].
  destruct l; simpl in *; [reflexivity|]. now rewrite IH.
Qed.

Lemma count_pending_removelast (l : list Message) :
  count_pending l = 0%nat -> count_pending (removelast l) = 0%nat.
Proof.
  unfold count_pending. induction l as [|a l IH]; simpl; [reflexivity|].
  destruct (Msg.pending a) eqn:E; simpl; [discriminate|].
  intros H. destruct l; [reflexivity|].
  simpl in *. rewrite E. now apply IH.
Qed.

Lemma user_turn_ok_resolvePending (c : jsstring) (m : Message) :
  user_turn_ok m -> user_turn_ok (resolvePending c m).
Proof.
  unfold user_turn_ok, resolvePending. intros H.
  destruct (Msg.pending m) eqn:E; simpl; intros Hu;
    destruct (H Hu) as [Hp Hc]; [discriminate|].
  split; [exact E|exact Hc].
Qed.

Lemma transcript_ok_map (f : Message -> Message) (s s' : State) :
  (forall m, user_turn_ok m -> user_turn_ok (f m)) ->
  (forall m, Msg.pending (f m) = Msg.pending m) ->
  messages s' = map f (messages s) ->
  transcript_ok s -> transcript_ok s'.
Proof.
  intros Hu Hp E [H1 H2]. unfold transcript_ok. rewrite E. split.
  - apply Forall_map. eapply Forall_impl; [|exact H1]. exact Hu.
  - rewrite removelast_map_msg. now rewrite (count_pending_map _ _ Hp).
Qed.

Lemma step_transcript_ok (s s' : State) (e : Event) :
  single_flight s -> transcript_ok s -> step s e = Some s' ->
  transcript_ok s'.
Proof.
  intros [Ha Hc] [H1 H2]. destruct e; simpl; intros Hs.
  - injection Hs as <-. split; assumption.
  - injection Hs as <-. destruct (send_rejected s) eqn:Hg.
    + unfold handleSendMessage. rewrite Hg. split; assumption.
    + assert (Hne : trim (message s) <> []).
      { intros E0. assert (R : send_rejected s = true)
          by (apply send_rejected_iff; now left). congruence. }
      assert (Hnew : Forall user_turn_ok
                       (messages s ++ [user_turn env s; placeholder env])).
      { apply Forall_app. split; [exact H1|].
        repeat constructor; unfold user_turn_ok; simpl; auto; discriminate. }
      rewrite (send_accepted_idle s Hg) in Ha. rewrite Ha in Hc.
      assert (Hz : count_pending (messages s) = 0%nat) by lia.
      rewrite (handleSendMessage_accepted env s Hg).
      destruct (throws_before_await env s); split; simpl.
      * apply Forall_map. eapply Forall_impl; [|exact Hnew].
        intros m. apply user_turn_ok_resolvePending.
      * apply count_pending_removelast, count_pending_resolved.
      * exact Hnew.
      * change [user_turn env s; placeholder env]
          with ([user_turn env s] ++ [placeholder env]).
        rewrite app_assoc, removelast_last, count_pending_app, Hz.
        reflexivity.
  - unfold resume in Hs. destruct (awaiting s); [discriminate|].
    injection Hs as <-.
    destruct o; split; simpl;
      try (apply Forall_map; eapply Forall_impl; [|exact H1];
           intros m; apply user_turn_ok_resolvePending);
      apply count_pending_removelast, count_pending_resolved.
  - injection Hs as <-. split; simpl; [constructor|reflexivity].
  - injection Hs as <-.
    apply (transcript_ok_map (regenerate_msg messageId) s);
      [| apply pending_regenerate_msg | reflexivity | split; assumption].
    intros m Hm. unfold regenerate_msg.
    destruct (Msg.id m =? messageId); [|exact Hm].
    unfold user_turn_ok. simpl. intros Hu. destruct (Hm Hu) as [Hp _].
    split; [exact Hp|]. unfold regenerated, marker. simpl. discriminate.
  - injection Hs as <-.
    eapply (transcript_ok_map _ s); [| |reflexivity|split; assumption].
    + intros m Hm. simpl. destruct (Msg.id m =? messageId); exact Hm.
    + intros m. simpl. now destruct (Msg.id m =? messageId).
Qed.

Lemma initial_transcript_ok : transcript_ok initial_state.
Proof.
  split; [|reflexivity].
  repeat constructor; unfold user_turn_ok; simpl; auto; discriminate.
Qed.

Lemma run_transcript_ok (es : list Event) (s s' : State) :
  single_flight s -> transcript_ok s -> run s es = Some s' ->
  transcript_ok s'.
Proof.
  revert s. induction es as [|e es IH]; simpl; intros s Hf Ht Hr.
  - now injection Hr as <-.
  - destruct (step s e) as [s1|] eqn:Hs; [|discriminate].
    destruct (step_single_flight s s1 e Hf Hs) as [Hf1 _].
    apply (IH s1);
      [exact Hf1 | exact (step_transcript_ok s s1 e Hf Ht Hs) | exact Hr].
Qed.

(** X16: in every state a run from the initial state reaches, a user turn
    is never loading and its content is never empty, and a turn that is
    loading is a bot turn in the last place of the transcript, shown
    without action buttons. *)
Theorem loading_turn_is_last (es : list Event) (s : State) :
  run initial_state es = Some s ->
  (forall m, In m (messages s) -> Msg.type m = user ->
             Msg.pending m = false /\ Msg.content m <> []) /\
  count_pending (removelast (messages s)) = 0%nat /\
  (forall n m, nth_error (messages s) n = Some m -> Msg.pending m = true ->
               Msg.type m = bot /\ shows_actions m = false /\
               S n = List.length (messages s)).
Proof.
  intros Hr.
  destruct (run_transcript_ok es _ _ initial_single_flight
              initial_transcript_ok Hr) as [H1 H2].
  rewrite Forall_forall in H1.
  split; [exact H1|]. split; [exact H2|].
  intros n m Hn Hp.
  assert (Hb : Msg.type m = bot).
  { destruct (Msg.type m) eqn:Et; [|reflexivity].
    destruct (H1 m (nth_error_In _ _ Hn) Et) as [Hp' _]. congruence. }
  split; [exact Hb|]. split; [unfold shows_actions; now rewrite Hb, Hp|].
  destruct (messages s) as [|a l] eqn:Em using rev_ind;
    [destruct n; discriminate|].
  clear IHl. rewrite removelast_last in H2. rewrite length_app. simpl.
  destruct (Nat.lt_ge_cases n (List.length l)) as [Hlt|Hge].
  - rewrite nth_error_app1 in Hn by exact Hlt.
    apply nth_error_In in Hn. exfalso.
    unfold count_pending in H2. apply length_zero_iff_nil in H2.
    assert (Hin : In m (filter Msg.pending l))
      by (apply filter_In; split; assumption).
    rewrite H2 in Hin. exact Hin.
  - assert (Hlen : (n < List.length (l ++ [a]))%nat)
      by (apply nth_error_Some; congruence).
    rewrite length_app in Hlen. simpl in Hlen. lia.
Qed.

Lemma loading_turn_is_last_witness :
  exists s,
    run initial_state
        [EType (js "hi");
         ESend (mkSendEnv 1700000000000 1700000000000 false false);
         ERegenerate 1700000000001] = Some s /\
    count_pending (removelast (messages s)) = 0%nat.
Proof.
  eexists. split; [vm_compute; reflexivity|].
  refine (proj1 (proj2 (loading_turn_is_last
    [EType (js "hi");
     ESend (mkSendEnv 1700000000000 1700000000000 false false);
     ERegenerate 1700000000001] _ _))). reflexivity.
Defined.
